(** * ProdSignal: the analysis route and the response parser

    A shallow embedding of the two pieces of logic of the application:

    - [src/app/page.tsx], [parseAnalysisResults]: the line scanner that turns
      the model's textual answer into problems, features and a top priority;
    - the API route ([retryWithBackoff] and the [POST] handler): input
      validation, prompt assembly, the remote call with exponential backoff
      and the response that is sent back.

    JavaScript strings are modelled by [string], read as sequences of code
    units in the Latin-1 range; JavaScript numbers that count or index are
    modelled by [nat] or [Z]. *)

From Stdlib Require Import String Ascii List ZArith Lia Bool DecimalString.
Import ListNotations.

Open Scope string_scope.
Open Scope list_scope.

(* ================================================================= *)
(** ** The string primitives the code calls *)

Module JsString.

(** The line feed, [split]'s separator in both source files. *)
Definition LF : ascii := "010"%char.

(** The double quote, kept apart so that no literal has to escape it. *)
Definition DQ : ascii := "034"%char.

(** [WhiteSpace] and [LineTerminator] of ECMAScript, as far as they lie in
    the Latin-1 range: TAB, LF, VT, FF, CR, SP and NBSP.  This is the set
    that [trim] strips and that the regular expression class [\s] matches. *)
Definition isWhiteSpace (c : ascii) : bool :=
  match nat_of_ascii c with
  | 9 | 10 | 11 | 12 | 13 | 32 | 160 => true
  | _ => false
  end.

(** JavaScript truthiness of a string: every string but the empty one. *)
Definition truthy (s : string) : bool :=
  match s with
  | EmptyString => false
  | String _ _ => true
  end.

(** [s.startsWith(p)]. *)
Definition startsWith (p s : string) : bool := String.prefix p s.

(** [s.includes(needle)]: [needle] starts at some position of [s]. *)
Fixpoint includes (needle s : string) : bool :=
  startsWith needle s ||
  match s with
  | EmptyString => false
  | String _ rest => includes needle rest
  end.

(** [s.trimStart()]. *)
Fixpoint trimStart (s : string) : string :=
  match s with
  | EmptyString => EmptyString
  | String c rest => if isWhiteSpace c then trimStart rest else s
  end.

(** [s.trimEnd()]: a character goes when it is white space and nothing but
    white space follows it. *)
Fixpoint trimEnd (s : string) : string :=
  match s with
  | EmptyString => EmptyString
  | String c rest =>
      match trimEnd rest with
      | EmptyString => if isWhiteSpace c then EmptyString else String c EmptyString
      | String _ _ as rest' => String c rest'
      end
  end.

(** [s.trim()]. *)
Definition trim (s : string) : string := trimEnd (trimStart s).

(** [s.split('\n')]: the pieces between line feeds; never empty, the empty
    string splits into one empty piece. *)
Fixpoint split_lines (s : string) : list string :=
  match s with
  | EmptyString => [EmptyString]
  | String c rest =>
      if Ascii.eqb c LF then EmptyString :: split_lines rest
      else
        match split_lines rest with
        | [] => [String c EmptyString]
        | l :: ls => String c l :: ls
        end
  end.

(** [pieces.join(sep)]. *)
Fixpoint join (sep : string) (pieces : list string) : string :=
  match pieces with
  | [] => EmptyString
  | [p] => p
  | p :: ps => p ++ sep ++ join sep ps
  end.

(** The suffix of [s] after its first [n] characters. *)
Fixpoint drop (n : nat) (s : string) : string :=
  match n, s with
  | O, _ => s
  | S _, EmptyString => EmptyString
  | S n', String _ rest => drop n' rest
  end.

(** The first occurrence of [pat] in [s]: the text before it and the text
    after it ([StringIndexOf] from position 0). *)
Fixpoint findFirst (pat s : string) : option (string * string) :=
  if startsWith pat s then Some (EmptyString, drop (String.length pat) s)
  else
    match s with
    | EmptyString => None
    | String c rest =>
        match findFirst pat rest with
        | Some (before, after) => Some (String c before, after)
        | None => None
        end
    end.

(** [GetSubstitution] for a string pattern (no capture groups): in the
    replacement text, [$$] stands for a dollar sign, [$&] for the matched
    text, [$`] for the text before the match and [$'] for the text after
    it; every other character, a lone dollar sign included, stands for
    itself. *)
Fixpoint getSubstitution (matched before after replacement : string) : string :=
  match replacement with
  | EmptyString => EmptyString
  | String c tail =>
      if Ascii.eqb c "$" then
        match tail with
        | EmptyString => String c EmptyString
        | String d rest =>
            if Ascii.eqb d "$" then String "$" (getSubstitution matched before after rest)
            else if Ascii.eqb d "&" then matched ++ getSubstitution matched before after rest
            else if Ascii.eqb d "`" then before ++ getSubstitution matched before after rest
            else if Ascii.eqb d "'" then after ++ getSubstitution matched before after rest
            else String c (getSubstitution matched before after tail)
        end
      else String c (getSubstitution matched before after tail)
  end.

(** [s.replace(pat, replacement)] with a string pattern: the first
    occurrence only, the replacement text expanded by [getSubstitution]. *)
Definition replace (pat replacement s : string) : string :=
  match findFirst pat s with
  | None => s
  | Some (before, after) =>
      before ++ getSubstitution pat before after replacement ++ after
  end.

(** [s.replace(/^-\s*/, '')]: a leading dash and the white space after it. *)
Definition stripDash (s : string) : string :=
  match s with
  | String c rest => if Ascii.eqb c "-" then trimStart rest else s
  | EmptyString => s
  end.

(** A template literal's rendering of a natural number: decimal digits. *)
Definition ofNat (n : nat) : string := NilZero.string_of_uint (Nat.to_uint n).

(** [s] holds [needle] somewhere: the property [includes] decides. *)
Definition hasSubstring (needle s : string) : Prop :=
  exists before after, s = (before ++ needle ++ after)%string.

End JsString.

(* ================================================================= *)
(** ** [parseAnalysisResults] of [src/app/page.tsx] *)

Module Parser.
Import JsString.

(** [Partial<Problem>]: [title] is set when the object is created, the
    other fields by later lines, [evidence] when the object is pushed. *)
Record Problem : Type := mkProblem {
  title : string;
  mentionedIn : option string;
  impact : option string;
  evidence : option (list string)
}.

(** [Partial<Feature>]. *)
Record Feature : Type := mkFeature {
  feature : string;
  why : option string;
  effort : option string;
  priority : option string
}.

(** [TopPriority]: created whole, with empty strings. *)
Record TopPriority : Type := mkTopPriority {
  what : string;
  tp_why : string;
  tp_impact : string;
  tp_evidence : string
}.

(** The values [currentSection] takes besides [null]. *)
Inductive Section_ : Type := problems_ | features_ | topPriority_.

Definition Section_eqb (a b : Section_) : bool :=
  match a, b with
  | problems_, problems_ | features_, features_ | topPriority_, topPriority_ => true
  | _, _ => false
  end.

(** The local variables of [parseAnalysisResults]. *)
Record State : Type := mkState {
  problems : list Problem;
  features : list Feature;
  topPriority : option TopPriority;
  currentSection : option Section_;
  currentProblem : option Problem;
  currentFeature : option Feature;
  currentEvidence : list string
}.

(** What [setParsedResults] receives. *)
Record ParsedResults : Type := mkParsedResults {
  r_problems : list Problem;
  r_features : list Feature;
  r_topPriority : option TopPriority
}.

Definition initial : State :=
  mkState [] [] None None None None [].

Definition inSection (st : State) (s : Section_) : bool :=
  match currentSection st with
  | Some s' => Section_eqb s' s
  | None => false
  end.

(** [if (currentProblem && currentProblem.title) { currentProblem.evidence =
    currentEvidence; problems.push(currentProblem) }]: the list of problems
    afterwards. *)
Definition pushProblem (st : State) : list Problem :=
  match currentProblem st with
  | Some p =>
      if truthy (title p)
      then problems st ++ [mkProblem (title p) (mentionedIn p) (impact p) (Some (currentEvidence st))]
      else problems st
  | None => problems st
  end.

(** [if (currentFeature && currentFeature.feature) features.push(currentFeature)]. *)
Definition pushFeature (st : State) : list Feature :=
  match currentFeature st with
  | Some f => if truthy (feature f) then features st ++ [f] else features st
  | None => features st
  end.

(** [line.replace(label, '').trim()]. *)
Definition fieldValue (label line : string) : string :=
  trim (replace label EmptyString line).

(** The first [if ... else if] chain of the loop body: the lines of the
    problems section. *)
Definition problemLine (line : string) (st : State) : State :=
  if inSection st problems_ && startsWith "Problem:" line then
    mkState (pushProblem st) (features st) (topPriority st) (currentSection st)
            (Some (mkProblem (fieldValue "Problem:" line) None None None))
            (currentFeature st) []
  else if inSection st problems_ && startsWith "Mentioned in:" line then
    match currentProblem st with
    | Some p =>
        mkState (problems st) (features st) (topPriority st) (currentSection st)
                (Some (mkProblem (title p) (Some (fieldValue "Mentioned in:" line)) (impact p) (evidence p)))
                (currentFeature st) (currentEvidence st)
    | None => st
    end
  else if inSection st problems_ && startsWith "Impact:" line then
    match currentProblem st with
    | Some p =>
        mkState (problems st) (features st) (topPriority st) (currentSection st)
                (Some (mkProblem (title p) (mentionedIn p) (Some (fieldValue "Impact:" line)) (evidence p)))
                (currentFeature st) (currentEvidence st)
    | None => st
    end
  else if inSection st problems_ && startsWith "Evidence:" line then
    let evidenceText := fieldValue "Evidence:" line in
    if truthy evidenceText then
      mkState (problems st) (features st) (topPriority st) (currentSection st)
              (currentProblem st) (currentFeature st) (currentEvidence st ++ [evidenceText])
    else st
  else if inSection st problems_ && startsWith "-" line then
    mkState (problems st) (features st) (topPriority st) (currentSection st)
            (currentProblem st) (currentFeature st) (currentEvidence st ++ [stripDash line])
  else if inSection st problems_ && startsWith (String DQ EmptyString) line then
    mkState (problems st) (features st) (topPriority st) (currentSection st)
            (currentProblem st) (currentFeature st) (currentEvidence st ++ [line])
  else st.

(** The second chain: the lines of the features section. *)
Definition featureLine (line : string) (st : State) : State :=
  if inSection st features_ && startsWith "Feature:" line then
    mkState (problems st) (pushFeature st) (topPriority st) (currentSection st)
            (currentProblem st)
            (Some (mkFeature (fieldValue "Feature:" line) None None None))
            (currentEvidence st)
  else if inSection st features_ && startsWith "Why:" line then
    match currentFeature st with
    | Some f =>
        mkState (problems st) (features st) (topPriority st) (currentSection st)
                (currentProblem st)
                (Some (mkFeature (feature f) (Some (fieldValue "Why:" line)) (effort f) (priority f)))
                (currentEvidence st)
    | None => st
    end
  else if inSection st features_ && startsWith "Effort:" line then
    match currentFeature st with
    | Some f =>
        mkState (problems st) (features st) (topPriority st) (currentSection st)
                (currentProblem st)
                (Some (mkFeature (feature f) (why f) (Some (fieldValue "Effort:" line)) (priority f)))
                (currentEvidence st)
    | None => st
    end
  else if inSection st features_ && startsWith "Priority:" line then
    match currentFeature st with
    | Some f =>
        mkState (problems st) (features st) (topPriority st) (currentSection st)
                (currentProblem st)
                (Some (mkFeature (feature f) (why f) (effort f) (Some (fieldValue "Priority:" line))))
                (currentEvidence st)
    | None => st
    end
  else st.

(** The assignments to [topPriority] in the third block. *)
Definition topPriorityValue (line : string) (tp : option TopPriority) : option TopPriority :=
  if startsWith "What to build first:" line then
    Some (mkTopPriority (fieldValue "What to build first:" line) EmptyString EmptyString EmptyString)
  else
    match tp with
    | Some t =>
        if startsWith "Why:" line then
          Some (mkTopPriority (what t) (fieldValue "Why:" line) (tp_impact t) (tp_evidence t))
        else if startsWith "Expected impact:" line then
          Some (mkTopPriority (what t) (tp_why t) (fieldValue "Expected impact:" line) (tp_evidence t))
        else if startsWith "Customer evidence:" line then
          Some (mkTopPriority (what t) (tp_why t) (tp_impact t) (fieldValue "Customer evidence:" line))
        else tp
    | None => tp
    end.

(** The third block: the lines of the top priority section. *)
Definition topPriorityLine (line : string) (st : State) : State :=
  if inSection st topPriority_ then
    mkState (problems st) (features st) (topPriorityValue line (topPriority st))
            (currentSection st) (currentProblem st) (currentFeature st) (currentEvidence st)
  else st.

(** One turn of the [for] loop, on the line [lines[i]]. *)
Definition processLine (st : State) (raw : string) : State :=
  let line := trim raw in
  if includes "PROBLEMS IDENTIFIED" line then
    mkState (problems st) (features st) (topPriority st) (Some problems_)
            (currentProblem st) (currentFeature st) (currentEvidence st)
  else if includes "RECOMMENDED FEATURES" line then
    mkState (pushProblem st) (features st) (topPriority st) (Some features_)
            None (currentFeature st) []
  else if includes "TOP PRIORITY" line then
    mkState (problems st) (pushFeature st) (topPriority st) (Some topPriority_)
            (currentProblem st) None (currentEvidence st)
  else topPriorityLine line (featureLine line (problemLine line st)).

(** The whole loop. *)
Definition scan (lines : list string) (st : State) : State :=
  fold_left processLine lines st.

(** The two pushes after the loop and the object given to
    [setParsedResults]. *)
Definition finish (st : State) : ParsedResults :=
  mkParsedResults (pushProblem st) (pushFeature st) (topPriority st).

Definition parseAnalysisResults (text : string) : ParsedResults :=
  finish (scan (split_lines text) initial).

End Parser.

(* ================================================================= *)
(** ** [retryWithBackoff] of the API route *)

Module Retry.
Import JsString.

Open Scope Z_scope.

(** What the handlers read of a thrown value: whether it is an [Error]
    instance, [error?.status], [error?.error?.type] and [error?.message].
    [status] is [None] when the field is missing or holds no number, and
    [error_type] when it is missing or holds no string: [===] is false
    either way. [message] is [None] when the field is missing; when it is
    there it is a string, as on every [Error] and on the errors of the
    client library. *)
Record JsError : Type := mkJsError {
  instanceofError : bool;
  status : option Z;
  error_type : option string;
  message : option string
}.

(** [new Error(msg)]. *)
Definition newError (msg : string) : JsError :=
  mkJsError true None None (Some msg).

(** The result of awaiting a promise. *)
Inductive Outcome (T : Type) : Type :=
| Resolved (v : T)
| Rejected (error : JsError).
Arguments Resolved {T} v.
Arguments Rejected {T} error.

(** What the route does that can be observed from outside, in order. *)
Inductive Event : Type :=
| Call                                          (* [await fn()] *)
| LogRetry (delay attempt maxRetries : Z)       (* the [console.log] before a retry *)
| Sleep (ms : Z)                                (* [await sleep(ms)] *)
| LogAnalysis (length : nat) (preview : string) (* the two [console.log] of [POST] *)
| LogError (error : JsError).                   (* [console.error] in [POST]'s handler *)

(** [x === n] for an optional number and [x === s] for an optional string. *)
Definition strictEqZ (x : option Z) (n : Z) : bool :=
  match x with
  | Some v => v =? n
  | None => false
  end.

Definition strictEqString (x : option string) (s : string) : bool :=
  match x with
  | Some v => String.eqb v s
  | None => false
  end.

(** [error?.message?.includes(needle)], [undefined] read as false. *)
Definition messageIncludes (needle : string) (error : JsError) : bool :=
  match message error with
  | Some m => includes needle m
  | None => false
  end.

Definition isOverloaded (error : JsError) : bool :=
  strictEqZ (status error) 529 ||
  strictEqString (error_type error) "overloaded_error" ||
  messageIncludes "overloaded" error.

Definition isRateLimit (error : JsError) : bool :=
  strictEqZ (status error) 429 ||
  strictEqString (error_type error) "rate_limit_error".

(** How control leaves the [for] loop. *)
Inductive LoopExit (T : Type) : Type :=
| Returned (v : T)          (* [return await fn()] *)
| Threw (error : JsError)   (* [throw error] *)
| FellThrough.              (* the loop condition failed *)
Arguments Returned {T} v.
Arguments Threw {T} error.
Arguments FellThrough {T}.

Section RetryWithBackoff.

Context {T : Type}.

(** The operation: what awaiting it gives, after the events so far. The
    attempt budget and the base delay are whole numbers. *)
Variable fn : list Event -> Outcome T.
Variable maxRetries : Z.
Variable baseDelay : Z.

(** The [for] loop from the test [attempt < maxRetries] on; [None] when
    [fuel] turns of the loop did not reach its end. *)
Fixpoint attempts (fuel : nat) (attempt : Z) (history : list Event)
  : option (LoopExit T * list Event) :=
  match fuel with
  | O => None
  | S fuel' =>
      if attempt <? maxRetries then
        match fn history with
        | Resolved v => Some (Returned v, history ++ [Call])
        | Rejected error =>
            if (isOverloaded error || isRateLimit error) && (attempt <? maxRetries - 1) then
              let delay := baseDelay * 2 ^ attempt in
              attempts fuel' (attempt + 1)
                       (history ++ [Call; LogRetry delay (attempt + 1) maxRetries; Sleep delay])
            else Some (Threw error, history ++ [Call])
        end
      else Some (FellThrough, history)
  end.

(** The function: the loop from [attempt = 0], then the [throw] after it. *)
Definition retryWithBackoff (history : list Event) : option (Outcome T * list Event) :=
  match attempts (S (Z.to_nat maxRetries)) 0 history with
  | Some (Returned v, h) => Some (Resolved v, h)
  | Some (Threw error, h) => Some (Rejected error, h)
  | Some (FellThrough, h) => Some (Rejected (newError "Max retries exceeded"), h)
  | None => None
  end.

End RetryWithBackoff.

End Retry.

(* ================================================================= *)
(** ** The [POST] handler of the API route *)

Module Route.
Import JsString Retry.

(** A value as [request.json()] gives it, and [undefined] for a property
    that is not there. *)
#[warnings="-register-all"]
Inductive JsValue : Type :=
| JUndefined
| JNull
| JBool (b : bool)
| JNumber (n : Z)
| JString (s : string)
| JArray (items : list JsValue)
| JObject (fields : list (string * JsValue)).

(** A block of [message.content]. *)
Record ContentBlock : Type := mkContentBlock {
  block_type : string;
  text : string
}.

(** The message the remote call resolves to; [content] may be missing. *)
Record Message : Type := mkMessage {
  content : option (list ContentBlock)
}.

(** The JSON body of a response. *)
Inductive ResponseBody : Type :=
| ErrorBody (error : string)
| SuccessBody (analysis : string) (interviewCount : nat).

(** [NextResponse.json(body, { status })]. *)
Record Response : Type := mkResponse {
  body : ResponseBody;
  http_status : Z
}.

Definition q : string := String DQ EmptyString.

Definition ANALYSIS_PROMPT_lines : list string := [
    "You are an expert product researcher analyzing customer interviews.";
    "Analyze these customer interviews and identify clear patterns.";
    EmptyString;
    "INTERVIEWS:";
    "{interviews}";
    EmptyString;
    "IMPORTANT: You MUST provide analysis in the EXACT format below. Do not omit any sections.";
    EmptyString;
    "---";
    EmptyString;
    "PROBLEMS IDENTIFIED";
    EmptyString;
    "Problem: [Clear, concise statement of the problem]";
    "Mentioned in: [e.g., 2/3 interviews]";
    "Impact: High/Medium/Low";
    "Evidence:";
    "- " ++ q ++ "[Direct quote from interview]" ++ q;
    "- " ++ q ++ "[Another direct quote]" ++ q;
    EmptyString;
    "Problem: [Second problem if applicable]";
    "Mentioned in: [e.g., 1/3 interviews]";
    "Impact: High/Medium/Low";
    "Evidence:";
    "- " ++ q ++ "[Direct quote from interview]" ++ q;
    EmptyString;
    "RECOMMENDED FEATURES";
    EmptyString;
    "Feature: [What to build to solve this problem]";
    "Why: [How this feature solves the problem]";
    "Effort: Small/Medium/Large";
    "Priority: P0/P1/P2";
    EmptyString;
    "Feature: [Second feature]";
    "Why: [How this feature solves the problem]";
    "Effort: Small/Medium/Large";
    "Priority: P0/P1/P2";
    EmptyString;
    "TOP PRIORITY";
    EmptyString;
    "What to build first: [Single most important feature]";
    "Why: [Reasoning based on customer evidence]";
    "Expected impact: High/Medium/Low";
    "Customer evidence: " ++ q ++ "[Key quote supporting this decision]" ++ q;
    EmptyString;
    "---";
    EmptyString;
    "Remember: Include at least 2-3 problems and 2-3 recommended features. Use real quotes from the interviews as evidence."
  ]%string.

(** The template literal, its lines joined by line feeds. *)
Definition ANALYSIS_PROMPT : string :=
  join (String LF EmptyString) ANALYSIS_PROMPT_lines.

(** A [TypeError] the engine throws, with its message (V8's wording). *)
Definition typeError (msg : string) : JsError := newError msg.

(** [const { interviews } = body]: destructuring [null] or [undefined]
    throws; a property that is not there reads as [undefined]. *)
Fixpoint getProperty (name : string) (fields : list (string * JsValue)) : JsValue :=
  match fields with
  | [] => JUndefined
  | (k, v) :: rest => if String.eqb k name then v else getProperty name rest
  end.

Definition destructureInterviews (body : JsValue) : Outcome JsValue :=
  match body with
  | JUndefined | JNull =>
      Rejected (typeError "Cannot destructure property 'interviews' of '(intermediate value)' as it is null.")
  | JObject fields => Resolved (getProperty "interviews" fields)
  | _ => Resolved JUndefined
  end.

(** [!v]. *)
Definition falsy (v : JsValue) : bool :=
  match v with
  | JUndefined | JNull => true
  | JBool b => negb b
  | JNumber n => n =? 0
  | JString s => negb (truthy s)
  | JArray _ | JObject _ => false
  end.

(** [!interviews || !Array.isArray(interviews) || interviews.length === 0]. *)
Definition invalidInput (interviews : JsValue) : bool :=
  falsy interviews ||
  match interviews with
  | JArray items => match items with [] => true | _ :: _ => false end
  | _ => true
  end.

(** [interviews.filter((i) => i && i.trim().length > 0)]: a string stays
    when it is not empty and not blank; a falsy entry goes; any other entry
    has no [trim] to call, and the call throws. *)
Fixpoint filterValid (items : list JsValue) : Outcome (list string) :=
  match items with
  | [] => Resolved []
  | i :: rest =>
      match i with
      | JString s =>
          match filterValid rest with
          | Resolved valid =>
              if truthy s && (0 <? String.length (trim s))%nat
              then Resolved (s :: valid) else Resolved valid
          | Rejected error => Rejected error
          end
      | _ =>
          if falsy i then filterValid rest
          else Rejected (typeError "i.trim is not a function")
      end
  end.

(** [validInterviews.map((text, index) => `--- Interview ${index + 1} ---\n${text}`)],
    from the index [index] on. *)
Fixpoint interviewBlocks (index : nat) (validInterviews : list string) : list string :=
  match validInterviews with
  | [] => []
  | text_ :: rest =>
      ("--- Interview " ++ ofNat (index + 1) ++ " ---" ++ String LF EmptyString ++ text_)%string
        :: interviewBlocks (S index) rest
  end.

Definition interviewsText (validInterviews : list string) : string :=
  join (String LF (String LF EmptyString)) (interviewBlocks 0 validInterviews).

(** [ANALYSIS_PROMPT.replace('{interviews}', interviewsText)]. *)
Definition prompt (validInterviews : list string) : string :=
  replace "{interviews}" (interviewsText validInterviews) ANALYSIS_PROMPT.

(** The text of the first block when it is a text block, else the empty
    string [analysis] starts with. *)
Definition analysisOf (m : Message) : string :=
  match content m with
  | Some (first :: _) =>
      if String.eqb (block_type first) "text" then text first else EmptyString
  | Some [] | None => EmptyString
  end.

(** The last two tests of the [catch] block: the answer to an overload,
    and the general answer. *)
Definition overloadedOrGeneral (error : JsError) : Response :=
  if strictEqZ (status error) 529 || strictEqString (error_type error) "overloaded_error" then
    mkResponse (ErrorBody "The Anthropic API is currently overloaded. Please wait a moment and try again.") 503
  else
    mkResponse (ErrorBody "Failed to analyze interviews. Please try again.") 500.

(** The [catch] block: the response an error gets. The first test reads
    [error.message.includes] without a guard: on an [Error] instance whose
    message is missing the call throws, and the block with it. *)
Definition errorResponse (error : JsError) : Outcome Response :=
  if instanceofError error then
    match message error with
    | Some m =>
        if includes "API key" m then
          Resolved (mkResponse (ErrorBody "API key not configured. Please add ANTHROPIC_API_KEY to your environment variables.") 500)
        else Resolved (overloadedOrGeneral error)
    | None =>
        Rejected (typeError "Cannot read properties of undefined (reading 'includes')")
    end
  else Resolved (overloadedOrGeneral error).

Section Handler.

(** [anthropic.messages.create] with the model, the token limit and the
    prompt as the one user message: what awaiting it gives, after the
    events so far. *)
Variable create : string -> list Event -> Outcome Message.

(** The [try] block: the response it returns or the error it throws. *)
Definition POST_try (request_json : Outcome JsValue) (history : list Event)
  : option (Outcome Response * list Event) :=
  match request_json with
  | Rejected error => Some (Rejected error, history)
  | Resolved json =>
      match destructureInterviews json with
      | Rejected error => Some (Rejected error, history)
      | Resolved interviews =>
          if invalidInput interviews then
            Some (Resolved (mkResponse (ErrorBody "Please provide at least one interview transcript") 400), history)
          else
            match interviews with
            | JArray items =>
                match filterValid items with
                | Rejected error => Some (Rejected error, history)
                | Resolved validInterviews =>
                    if (List.length validInterviews =? 0)%nat then
                      Some (Resolved (mkResponse (ErrorBody "No valid interview transcripts provided") 400), history)
                    else
                      match retryWithBackoff (create (prompt validInterviews)) 3 1500 history with
                      | None => None
                      | Some (Rejected error, h) => Some (Rejected error, h)
                      | Some (Resolved message_, h) =>
                          let analysis := analysisOf message_ in
                          Some (Resolved (mkResponse (SuccessBody analysis (List.length validInterviews)) 200),
                                h ++ [LogAnalysis (String.length analysis) (substring 0 300 analysis)])
                      end
                end
            | _ =>
                (* not reached: [invalidInput] holds of every value that is no array *)
                Some (Rejected (typeError "interviews.filter is not a function"), history)
            end
      end
  end.

(** The handler: the [try] block, and the [catch] block for what it
    throws. It resolves to a response, or is rejected when the [catch] block
    throws in its turn. *)
Definition POST (request_json : Outcome JsValue) (history : list Event)
  : option (Outcome Response * list Event) :=
  match POST_try request_json history with
  | None => None
  | Some (Resolved response, h) => Some (Resolved response, h)
  | Some (Rejected error, h) => Some (errorResponse error, h ++ [LogError error])
  end.

End Handler.

End Route.

(* ================================================================= *)
(** ** The [Home] component of [src/app/page.tsx]: its state and handlers *)

Module Page.
Import JsString Parser Retry.

(** [s.endsWith(suffix)]: some tail of [s] is [suffix]. *)
Fixpoint endsWith (suffix s : string) : bool :=
  String.eqb suffix s ||
  match s with
  | EmptyString => false
  | String _ rest => endsWith suffix rest
  end.

Definition SAMPLE_INTERVIEW_1 : string :=
  join (String LF EmptyString) [
    "Interview with Sarah - Product Manager at TechCorp";
    EmptyString;
    "Interviewer: Thanks for joining. Can you tell me about your current workflow?";
    EmptyString;
    "Sarah: Sure. I spend about 4 hours a week just copy-pasting data between our CRM and our analytics tool. It's really tedious. There's no integration, so I have to manually export CSVs, clean them up, and then import them.";
    EmptyString;
    "Interviewer: That sounds painful. What would help?";
    EmptyString;
    "Sarah: An automatic sync would be huge. Or even just a better export format from the CRM. Right now the exports are messy and require a lot of cleanup.";
    EmptyString;
    "Interviewer: Any other frustrations?";
    EmptyString;
    "Sarah: The reporting is limited. I can't create custom dashboards for my team. We all need different views but there's only one standard report."
  ].

Definition SAMPLE_INTERVIEW_2 : string :=
  join (String LF EmptyString) [
    "Interview with Mike - Engineering Lead at StartupXYZ";
    EmptyString;
    "Interviewer: What's your biggest pain point right now?";
    EmptyString;
    "Mike: Documentation. Our knowledge base is outdated and nobody updates it. When new engineers join, they ask the same questions over and over.";
    EmptyString;
    "Interviewer: How do you handle that?";
    EmptyString;
    "Mike: We end up having senior devs repeat themselves in Slack. It's not scalable. We need something that makes documentation easy to keep updated, maybe integrated with our workflow.";
    EmptyString;
    "Interviewer: What would your ideal solution look like?";
    EmptyString;
    "Mike: Something that automatically documents code changes. Or at least reminds devs to update docs when they modify something. Right now it's purely manual and easy to forget."
  ].

Definition SAMPLE_INTERVIEW_3 : string :=
  join (String LF EmptyString) [
    "Interview with Lisa - Customer Success Manager";
    EmptyString;
    "Interviewer: What feedback do you hear from customers?";
    EmptyString;
    "Lisa: They love the product, but onboarding is confusing. They don't know where to start. There's no guided tour or checklist.";
    EmptyString;
    "Interviewer: What happens then?";
    EmptyString;
    "Lisa: They churn early or they bombard support with basic questions. Our team spends 60% of time answering questions that should be in the product.";
    EmptyString;
    "Interviewer: What would help?";
    EmptyString;
    "Lisa: An interactive onboarding flow. In-product tooltips. A getting started checklist. Something that guides new users without them having to contact support."
  ].

Definition SAMPLE_INTERVIEWS : list string :=
  [SAMPLE_INTERVIEW_1; SAMPLE_INTERVIEW_2; SAMPLE_INTERVIEW_3].

(** What the handlers read of a [File]: its name and its MIME type, and the
    text [file.text()] resolves to. *)
Record File : Type := mkFile {
  file_name : string;
  file_type : string;
  file_text : string
}.

(** [AppState]. *)
Inductive AppState : Type := landing | analyzing | results.

(** The state hooks of [Home]. *)
Record Home : Type := mkHome {
  appState : AppState;
  isDragging : bool;
  uploadedFiles : list File;
  pastedText : list string;
  analysis : string;
  parsedResults : option ParsedResults;
  email : string;
  isVisible : bool
}.

(** The first render: the initial values of the hooks. *)
Definition initialHome : Home :=
  mkHome landing false [] [] EmptyString None EmptyString false.

(** What a handler does besides setting state. *)
Inductive Effect : Type :=
| Alert (msg : string)
| ConsoleError
| Download (name : string) (mime : string) (contents : string).

(** The body of the response as [response.json()] gives it to
    [analyzeInterviews]: [success] is false when the field is missing, and
    [analysis] is read only when [success] holds. *)
Record AnalysisResult : Type := mkAnalysisResult {
  success : bool;
  result_analysis : string;
  interviewCount : nat;
  result_error : option string
}.

Definition handleDragOver (st : Home) : Home :=
  mkHome (appState st) true (uploadedFiles st) (pastedText st) (analysis st)
         (parsedResults st) (email st) (isVisible st).

Definition handleDragLeave (st : Home) : Home :=
  mkHome (appState st) false (uploadedFiles st) (pastedText st) (analysis st)
         (parsedResults st) (email st) (isVisible st).

(** The test of [handleDrop]'s filter. *)
Definition acceptedOnDrop (f : File) : bool :=
  String.eqb (file_type f) "text/plain" ||
  endsWith ".md" (file_name f) ||
  endsWith ".txt" (file_name f).

Definition handleDrop (files : list File) (st : Home) : Home :=
  mkHome (appState st) false (uploadedFiles st ++ filter acceptedOnDrop files)
         (pastedText st) (analysis st) (parsedResults st) (email st) (isVisible st).

(** [e.target.files] is [null] or a list. *)
Definition handleFileInput (files : option (list File)) (st : Home) : Home :=
  match files with
  | Some fs =>
      mkHome (appState st) (isDragging st) (uploadedFiles st ++ fs)
             (pastedText st) (analysis st) (parsedResults st) (email st) (isVisible st)
  | None => st
  end.

(** [window.prompt] gives the text typed, or [null] when it is cancelled. *)
Definition handlePasteText (answer : option string) (st : Home) : Home :=
  match answer with
  | Some text_ =>
      if truthy (trim text_) then
        mkHome (appState st) (isDragging st) (uploadedFiles st)
               (pastedText st ++ [text_]) (analysis st) (parsedResults st)
               (email st) (isVisible st)
      else st
  | None => st
  end.

(** [list.filter((_, i) => i !== index)], the first element having the
    index [i]. *)
Fixpoint filterIndex {A : Type} (i index : nat) (l : list A) : list A :=
  match l with
  | [] => []
  | x :: rest =>
      if negb (Nat.eqb i index) then x :: filterIndex (S i) index rest
      else filterIndex (S i) index rest
  end.

Definition removeFile (index : nat) (st : Home) : Home :=
  mkHome (appState st) (isDragging st) (filterIndex 0 index (uploadedFiles st))
         (pastedText st) (analysis st) (parsedResults st) (email st) (isVisible st).

Definition removePastedText (index : nat) (st : Home) : Home :=
  mkHome (appState st) (isDragging st) (uploadedFiles st)
         (filterIndex 0 index (pastedText st)) (analysis st) (parsedResults st)
         (email st) (isVisible st).

Definition useSampleData (st : Home) : Home :=
  mkHome (appState st) (isDragging st) (uploadedFiles st) SAMPLE_INTERVIEWS
         (analysis st) (parsedResults st) (email st) (isVisible st).

(** The "Clear all" button. *)
Definition clearAll (st : Home) : Home :=
  mkHome (appState st) (isDragging st) [] [] (analysis st) (parsedResults st)
         (email st) (isVisible st).

(** The "New Analysis" and "Try Another Demo" buttons. *)
Definition newAnalysis (st : Home) : Home :=
  mkHome landing (isDragging st) [] [] EmptyString None (email st) (isVisible st).

Definition totalInterviews (st : Home) : nat :=
  List.length (uploadedFiles st) + List.length (pastedText st).

Definition submitEmail (st : Home) : Home * list Effect :=
  if truthy (trim (email st)) then
    (mkHome (appState st) (isDragging st) (uploadedFiles st) (pastedText st) (analysis st)
            (parsedResults st) EmptyString (isVisible st),
     [Alert ("Welcome to the waitlist! We'll notify " ++ email st
             ++ " when we launch with your 50% founding customer discount.")%string])
  else (st, []).

(** [[...fileContents, ...pastedText]]. *)
Definition allInterviews (fileContents : list string) (st : Home) : list string :=
  fileContents ++ pastedText st.

(** [analyzeInterviews], from the state it is called in. [readFiles] is
    what awaiting the texts of the uploaded files gives, and [fetchAnalyze]
    what awaiting the request and the body of its response gives for the
    interviews sent. The state is the one after the handler has finished. *)
Definition analyzeInterviews (readFiles : list File -> Outcome (list string))
           (fetchAnalyze : list string -> Outcome AnalysisResult)
           (st : Home) : Home * list Effect :=
  match readFiles (uploadedFiles st) with
  | Rejected _ =>
      (mkHome landing (isDragging st) (uploadedFiles st) (pastedText st) (analysis st)
              (parsedResults st) (email st) (isVisible st),
       [ConsoleError;
        Alert "Failed to analyze interviews. Please check your connection and try again."])
  | Resolved fileContents =>
      match fetchAnalyze (allInterviews fileContents st) with
      | Rejected _ =>
          (mkHome landing (isDragging st) (uploadedFiles st) (pastedText st) (analysis st)
                  (parsedResults st) (email st) (isVisible st),
           [ConsoleError;
            Alert "Failed to analyze interviews. Please check your connection and try again."])
      | Resolved result =>
          if success result then
            (mkHome results (isDragging st) (uploadedFiles st) (pastedText st)
                    (result_analysis result)
                    (Some (parseAnalysisResults (result_analysis result)))
                    (email st) (isVisible st),
             [])
          else
            (mkHome landing (isDragging st) (uploadedFiles st) (pastedText st) (analysis st)
                    (parsedResults st) (email st) (isVisible st),
             [Alert (match result_error result with
                     | Some msg => if truthy msg then msg else "Analysis failed. Please try again."
                     | None => "Analysis failed. Please try again."
                     end)])
      end
  end.

(** A template literal's rendering of a field that may be [undefined]. *)
Definition shown (x : option string) : string :=
  match x with
  | Some s => s
  | None => "undefined"
  end.

Definition ln : string := String LF EmptyString.

(** The block of one problem in the report; [p.evidence.map] throws when
    the problem has no evidence list. *)
Definition problemBlock (i : nat) (p : Problem) : Outcome string :=
  match evidence p with
  | None => Rejected (newError "Cannot read properties of undefined (reading 'map')")
  | Some ev =>
      Resolved ("### " ++ ofNat (i + 1) ++ ". " ++ title p ++ ln ++
                ln ++
                "**Mentioned in:** " ++ shown (mentionedIn p) ++ ln ++
                "**Impact:** " ++ shown (impact p) ++ ln ++
                ln ++
                "**Evidence:**" ++ ln ++
                join ln (map (fun e => "- " ++ e)%string ev) ++ ln ++
                ln)%string
  end.

(** [problems.map((p, i) => ...)], from the index [i] on. *)
Fixpoint problemBlocks (i : nat) (ps : list Problem) : Outcome (list string) :=
  match ps with
  | [] => Resolved []
  | p :: rest =>
      match problemBlock i p with
      | Rejected error => Rejected error
      | Resolved b =>
          match problemBlocks (S i) rest with
          | Rejected error => Rejected error
          | Resolved bs => Resolved (b :: bs)
          end
      end
  end.

Definition featureBlock (i : nat) (f : Feature) : string :=
  "### " ++ ofNat (i + 1) ++ ". " ++ feature f ++ ln ++
  ln ++
  "**Why:** " ++ shown (why f) ++ ln ++
  "**Effort:** " ++ shown (effort f) ++ ln ++
  "**Priority:** " ++ shown (priority f) ++ ln ++
  ln.

Fixpoint featureBlocks (i : nat) (fs : list Feature) : list string :=
  match fs with
  | [] => []
  | f :: rest => featureBlock i f :: featureBlocks (S i) rest
  end.

Definition topPriorityBlock (t : TopPriority) : string :=
  "## TOP PRIORITY" ++ ln ++
  ln ++
  "**What to build:** " ++ what t ++ ln ++
  ln ++
  "**Why:** " ++ tp_why t ++ ln ++
  ln ++
  "**Expected Impact:** " ++ tp_impact t ++ ln ++
  ln ++
  "**Customer Evidence:** " ++ tp_evidence t ++ ln ++
  ln ++
  "---" ++ ln ++
  ln.

(** The text of the report. [localeDate] is what
    [new Date().toLocaleDateString()] gives. With no parsed results the two
    lists render as [undefined]. *)
Definition markdownOf (parsed : option ParsedResults) (localeDate : string) : Outcome string :=
  let top :=
    match parsed with
    | Some r => match r_topPriority r with Some t => topPriorityBlock t | None => EmptyString end
    | None => EmptyString
    end in
  let problemsText :=
    match parsed with
    | Some r =>
        match problemBlocks 0 (r_problems r) with
        | Resolved bs => Resolved (join ln bs)
        | Rejected error => Rejected error
        end
    | None => Resolved "undefined"
    end in
  let featuresText :=
    match parsed with
    | Some r => join ln (featureBlocks 0 (r_features r))
    | None => "undefined"
    end in
  match problemsText with
  | Rejected error => Rejected error
  | Resolved ps =>
      Resolved ("# ProdSignal Analysis Report" ++ ln ++
                "Generated on " ++ localeDate ++ ln ++
                ln ++
                "---" ++ ln ++
                ln ++
                top ++ "## PROBLEMS IDENTIFIED" ++ ln ++
                ln ++
                ps ++ ln ++
                ln ++
                "---" ++ ln ++
                ln ++
                "## RECOMMENDED FEATURES" ++ ln ++
                ln ++
                featuresText ++ ln ++
                ln ++
                "---" ++ ln ++
                ln ++
                "*Generated by ProdSignal - AI Product Discovery Tool*" ++ ln)%string
  end.

(** [exportToMarkdown]: the report, offered as a download named after
    [Date.now()]; an exception when the report cannot be built. *)
Definition exportToMarkdown (localeDate : string) (now : nat) (st : Home)
  : Outcome (list Effect) :=
  match markdownOf (parsedResults st) localeDate with
  | Rejected error => Rejected error
  | Resolved markdown =>
      Resolved [Download ("prodsignal-analysis-" ++ ofNat now ++ ".md")%string
                         "text/markdown" markdown]
  end.

(** What the user can do, with what the environment answers. *)
Inductive Action : Type :=
| DragOver
| DragLeave
| Drop (files : list File)
| FileInput (files : option (list File))
| PasteText (answer : option string)
| RemoveFile (index : nat)
| RemovePastedText (index : nat)
| UseSampleData
| ClearAll
| Analyze (readFiles : list File -> Outcome (list string))
          (fetchAnalyze : list string -> Outcome AnalysisResult)
| NewAnalysis.

(** Which controls the component renders: the upload area in the landing
    view; the sample link while nothing is loaded; the list of interviews
    with its buttons once something is; the reset buttons in the results
    view; nothing while analyzing. *)
Definition rendered (st : Home) (a : Action) : bool :=
  match appState st, a with
  | landing, (DragOver | DragLeave | Drop _ | FileInput _ | PasteText _) => true
  | landing, UseSampleData =>
      Nat.eqb (List.length (pastedText st)) 0 && Nat.eqb (List.length (uploadedFiles st)) 0
  | landing, RemoveFile index =>
      (index <? List.length (uploadedFiles st))%nat
  | landing, RemovePastedText index =>
      (index <? List.length (pastedText st))%nat
  | landing, (ClearAll | Analyze _ _) =>
      (0 <? List.length (uploadedFiles st))%nat || (0 <? List.length (pastedText st))%nat
  | results, NewAnalysis => true
  | _, _ => false
  end.

(** The state after an action. Each action sees the state the one before
    it left: the component is rendered again between two events. *)
Definition act (st : Home) (a : Action) : Home :=
  match a with
  | DragOver => handleDragOver st
  | DragLeave => handleDragLeave st
  | Drop files => handleDrop files st
  | FileInput files => handleFileInput files st
  | PasteText answer => handlePasteText answer st
  | RemoveFile index => removeFile index st
  | RemovePastedText index => removePastedText index st
  | UseSampleData => useSampleData st
  | ClearAll => clearAll st
  | Analyze readFiles fetchAnalyze => fst (analyzeInterviews readFiles fetchAnalyze st)
  | NewAnalysis => newAnalysis st
  end.

(** The states the component can be in between two actions. *)
Inductive Reachable : Home -> Prop :=
| reach_initial : Reachable initialHome
| reach_visible (st : Home) :
    Reachable st ->
    Reachable (mkHome (appState st) (isDragging st) (uploadedFiles st) (pastedText st)
                      (analysis st) (parsedResults st) (email st) true)
| reach_act (st : Home) (a : Action) :
    Reachable st -> rendered st a = true -> Reachable (act st a).

End Page.

(* ================================================================= *)
(** ** Reference definitions, in the words of the specification *)

Module ParserSpec.
Import JsString Parser.

(** *** What the scan should find, read off the lines alone *)

(** A line that holds one of the three section headers. *)
Definition isHeader (line : string) : bool :=
  includes "PROBLEMS IDENTIFIED" line ||
  includes "RECOMMENDED FEATURES" line ||
  includes "TOP PRIORITY" line.

(** The section after a line, the problems header first. *)
Definition sectionAfter (sec : option Section_) (line : string) : option Section_ :=
  if includes "PROBLEMS IDENTIFIED" line then Some problems_
  else if includes "RECOMMENDED FEATURES" line then Some features_
  else if includes "TOP PRIORITY" line then Some topPriority_
  else sec.

Definition isSection (sec : option Section_) (s : Section_) : bool :=
  match sec with
  | Some s' => Section_eqb s' s
  | None => false
  end.

(** The title a line opens a problem under, when it does and the title is
    not empty. *)
Definition problemTitleOn (sec : option Section_) (line : string) : list string :=
  if negb (isHeader line) && isSection sec problems_ && startsWith "Problem:" line
     && truthy (fieldValue "Problem:" line)
  then [fieldValue "Problem:" line] else [].

Definition featureNameOn (sec : option Section_) (line : string) : list string :=
  if negb (isHeader line) && isSection sec features_ && startsWith "Feature:" line
     && truthy (fieldValue "Feature:" line)
  then [fieldValue "Feature:" line] else [].

(** The titles of the problems the text holds, in order. *)
Fixpoint problemTitlesFound (sec : option Section_) (lines : list string) : list string :=
  match lines with
  | [] => []
  | raw :: rest =>
      problemTitleOn sec (trim raw) ++ problemTitlesFound (sectionAfter sec (trim raw)) rest
  end.

(** The names of the features the text holds, in order. *)
Fixpoint featureNamesFound (sec : option Section_) (lines : list string) : list string :=
  match lines with
  | [] => []
  | raw :: rest =>
      featureNameOn sec (trim raw) ++ featureNamesFound (sectionAfter sec (trim raw)) rest
  end.

(** The state a header line of the problems section would leave, had it
    dropped the records in progress and the evidence gathered so far. *)
Definition discardSectionState (st : State) : State :=
  mkState (problems st) (features st) (topPriority st) (Some problems_) None None [].

(** The state it does leave: the section changes, nothing else. *)
Definition enterProblems (st : State) : State :=
  mkState (problems st) (features st) (topPriority st) (Some problems_)
          (currentProblem st) (currentFeature st) (currentEvidence st).

(** The text of the worked example of the specification. *)
Definition nl : string := String LF EmptyString.
Definition quoted (s : string) : string := (String DQ EmptyString ++ s ++ String DQ EmptyString)%string.

Definition exampleText : string :=
  join nl [
    "PROBLEMS IDENTIFIED";
    "Problem: Slow onboarding";
    "Mentioned in: 2/3";
    "Impact: High";
    "Evidence:";
    ("- " ++ quoted "Users get lost")%string;
    EmptyString;
    "RECOMMENDED FEATURES";
    "Feature: Guided checklist";
    "Why: Reduces confusion";
    "Effort: Small";
    "Priority: P0";
    EmptyString;
    "TOP PRIORITY";
    "What to build first: Guided checklist";
    "Why: Biggest complaint";
    "Expected impact: High";
    ("Customer evidence: " ++ quoted "Users get lost")%string
  ].

End ParserSpec.

Module RetrySpec.
Import JsString Retry.

Open Scope Z_scope.

(** *** The classification in the words of the specification *)

(** The error tells that the service is overloaded: by its status code, by
    its type tag, or by a message that holds the word. *)
Definition indicatesOverload (error : JsError) : Prop :=
  status error = Some 529 \/
  error_type error = Some "overloaded_error" \/
  exists m, message error = Some m /\ hasSubstring "overloaded" m.

(** The error tells that the rate limit was hit: by its status code or by
    its type tag. *)
Definition indicatesRateLimit (error : JsError) : Prop :=
  status error = Some 429 \/
  error_type error = Some "rate_limit_error".

(** *** Reading a history *)

(** The events of [k] failed attempts, each followed by its log line and
    its sleep. *)
Fixpoint retryHistory (maxRetries baseDelay : Z) (k : nat) : list Event :=
  match k with
  | O => []
  | S j =>
      retryHistory maxRetries baseDelay j ++
      [Call;
       LogRetry (baseDelay * 2 ^ Z.of_nat j) (Z.of_nat j + 1) maxRetries;
       Sleep (baseDelay * 2 ^ Z.of_nat j)]
  end.

(** The delays slept, in order. *)
Fixpoint sleepsOf (history : list Event) : list Z :=
  match history with
  | [] => []
  | Sleep ms :: rest => ms :: sleepsOf rest
  | _ :: rest => sleepsOf rest
  end.

(** The number of times the operation was awaited. *)
Fixpoint callsMade (history : list Event) : nat :=
  match history with
  | [] => O
  | Call :: rest => S (callsMade rest)
  | _ :: rest => callsMade rest
  end.

(** An operation that is rejected with [error] the first [k] times it is
    awaited and resolves to [v] from then on. *)
Definition failsThenResolves {T : Type} (k : nat) (error : JsError) (v : T)
  : list Event -> Outcome T :=
  fun history => if (callsMade history <? k)%nat then Rejected error else Resolved v.

Definition overloaded529 : JsError := mkJsError true (Some 529) None (Some "Overloaded").
Definition badRequest400 : JsError := mkJsError true (Some 400) None (Some "Bad request").

End RetrySpec.

Module RouteSpec.
Import JsString Retry Route.

(** An entry that is a string with nothing left after trimming. *)
Definition blankEntry (i : JsValue) : Prop :=
  exists s, i = JString s /\ trim s = EmptyString.

(** A transcript that counts: something is left after trimming. *)
Definition nonBlank (s : string) : bool := negb (String.eqb (trim s) EmptyString).

(** The template with [value] put in the place of the first [placeholder],
    character for character. *)
Definition substituted (template placeholder value : string) : string :=
  match findFirst placeholder template with
  | Some (before, after) => (before ++ value ++ after)%string
  | None => template
  end.

(** The prompt as the specification words it: the serialized transcripts
    in the place of [{interviews}]. *)
Definition promptAsSpecified (validInterviews : list string) : string :=
  substituted ANALYSIS_PROMPT "{interviews}" (interviewsText validInterviews).

(** The block of one transcript, as the specification words it: a header
    line with the transcript's number, then the transcript on the next line. *)
Definition blockOf (number : nat) (transcript : string) : string :=
  ("--- Interview " ++ ofNat number ++ " ---" ++ String LF EmptyString ++ transcript)%string.

(** The transcripts with their numbers, counted from 1 in the order given. *)
Definition numbered (transcripts : list string) : list (nat * string) :=
  combine (seq 1 (List.length transcripts)) transcripts.

(** The serialized transcripts: the blocks in order, a blank line between
    two of them. *)
Definition serializedTranscripts (transcripts : list string) : string :=
  String.concat (String LF (String LF EmptyString))
                (map (fun nt => blockOf (fst nt) (snd nt)) (numbered transcripts)).

(** A remote call that resolves at once to a message with the given content. *)
Definition respondsWith (blocks : list ContentBlock) : string -> list Event -> Outcome Message :=
  fun _ _ => Resolved (mkMessage (Some blocks)).

Definition requestOf (entries : list JsValue) : JsValue :=
  JObject [("interviews"%string, JArray entries)].

End RouteSpec.

(** Case analysis on the tests of the loop body. *)
Module ParserTactics.
Import Parser.

Ltac split_ifs :=
  repeat match goal with
         | |- context [if ?b then _ else _] => destruct b eqn:?
         | |- context [match currentProblem ?st with _ => _ end] =>
             destruct (currentProblem st) eqn:?
         | |- context [match currentFeature ?st with _ => _ end] =>
             destruct (currentFeature st) eqn:?
         end.

Ltac some_inj :=
  repeat match goal with
         | H : Some _ = Some _ |- _ => inversion H; subst; clear H
         | H : Some _ = None |- _ => discriminate H
         | H : None = Some _ |- _ => discriminate H
         end.

End ParserTactics.

(** Measures of a run of the retry loop and of the handler. *)
Module RunSpec.
Import JsString Retry Route RetrySpec.

Open Scope Z_scope.

(** How the loop is left when the attempt it stops at gives [o]. *)
Definition exitOf {T : Type} (o : Outcome T) : LoopExit T :=
  match o with
  | Resolved v => Returned v
  | Rejected error => Threw error
  end.

(** The time slept in a history, in milliseconds. *)
Definition totalSleep (history : list Event) : Z :=
  fold_right Z.add 0 (sleepsOf history).

(** The status codes the handler answers with. *)
Definition answersWith (r : Response) : Prop :=
  (http_status r = 200 /\ exists analysis n, body r = SuccessBody analysis n) \/
  ((http_status r = 400 \/ http_status r = 500 \/ http_status r = 503) /\
   exists msg, body r = ErrorBody msg).

(** The error is one the handler reports as a missing API key. *)
Definition isApiKeyError (error : JsError) : bool :=
  instanceofError error && messageIncludes "API key" error.

(** The error is an [Error] instance without a message: the one on which the
    first test of the [catch] block throws. *)
Definition unreadableError (error : JsError) : bool :=
  instanceofError error &&
  match message error with
  | Some _ => false
  | None => true
  end.

(** A remote call that is always rejected with [error]. *)
Definition alwaysRejects (error : JsError) : string -> list Event -> Outcome Message :=
  fun _ _ => Rejected error.

Definition rateLimited429 : JsError := mkJsError true (Some 429) None (Some "Too many requests").

(** An [Error] instance that carries the status 529 and no message. *)
Definition overloaded529 : JsError := mkJsError true (Some 529) None None.

(** An entry of the list that is neither falsy nor a string. *)
Definition truthyNonString (i : JsValue) : bool :=
  match i with
  | JString _ => false
  | _ => negb (falsy i)
  end.

(** An entry the filter drops without a word: a falsy value or a blank string. *)
Definition droppedEntry (i : JsValue) : bool :=
  match i with
  | JString s => negb (truthy s && (0 <? String.length (trim s))%nat)
  | _ => falsy i
  end.

(** The strings the filter keeps, when it does not throw. *)
Fixpoint keptStrings (items : list JsValue) : list string :=
  match items with
  | [] => []
  | JString s :: rest =>
      if truthy s && (0 <? String.length (trim s))%nat then s :: keptStrings rest
      else keptStrings rest
  | _ :: rest => keptStrings rest
  end.

End RunSpec.

(** What the scan reads off the lines, beyond titles and names. *)
Module ScanSpec.
Import JsString Parser ParserSpec.

(** No line feed in the string: it is one line. *)
Fixpoint oneLine (s : string) : bool :=
  match s with
  | EmptyString => true
  | String c rest => negb (Ascii.eqb c LF) && oneLine rest
  end.

(** The lines of a text that are not blank, each trimmed. *)
Definition significantLines (text_ : string) : list string :=
  filter (fun l => negb (String.eqb l EmptyString)) (map trim (split_lines text_)).

(** The text whose lines are those of [text_], each trimmed. *)
Definition trimLines (text_ : string) : string :=
  join nl (map trim (split_lines text_)).


End ScanSpec.

(** The page and the route together. *)
Module PageSpec.
Import JsString Parser Retry Route Page RouteSpec.

(** The body of a response as the page reads it. *)
Definition resultOf (r : Response) : AnalysisResult :=
  match body r with
  | SuccessBody analysis n => mkAnalysisResult true analysis n None
  | ErrorBody msg => mkAnalysisResult false EmptyString 0 (Some msg)
  end.

(** The request of [analyzeInterviews] answered by the route's [POST], the
    remote call being [create] and the route's history so far [h]: the
    interviews travel as a list of strings under the key [interviews], and
    the answer comes back whatever its status. When the handler throws there
    is no JSON answer, and reading the body of the response fails. *)
Definition fetchFromRoute (create : string -> list Event -> Outcome Message)
           (h : list Event) (interviews : list string) : Outcome AnalysisResult :=
  match POST create (Resolved (requestOf (map JString interviews))) h with
  | Some (Resolved r, _) => Resolved (resultOf r)
  | Some (Rejected error, _) => Rejected error
  | None => Rejected (newError "no response")
  end.

(** A file a drop takes: its MIME type is [text/plain], or its name ends in
    [.md] or in [.txt]. *)
Definition textFile (f : File) : Prop :=
  file_type f = "text/plain"%string \/
  (exists before, file_name f = (before ++ ".md")%string) \/
  (exists before, file_name f = (before ++ ".txt")%string).

(** Every uploaded file can be read. *)
Definition readAll (files : list File) : Outcome (list string) :=
  Resolved (map file_text files).

(** The transcripts the route keeps of those the page sends. *)
Definition keptInterviews (st : Home) : list string :=
  filter nonBlank (map file_text (uploadedFiles st)) ++ pastedText st.

(** What holds of the state between two actions. *)
Definition consistent (st : Home) : Prop :=
  appState st <> analyzing /\
  (appState st = landing -> analysis st = EmptyString /\ parsedResults st = None) /\
  (appState st = results ->
   parsedResults st = Some (parseAnalysisResults (analysis st))) /\
  Forall (fun t => nonBlank t = true) (pastedText st) /\
  email st = EmptyString.

End PageSpec.

(* ================================================================= *)
(** ** Facts about the string primitives *)

Module JsStringFacts.
Import JsString.

Lemma append_empty_r (s : string) : (s ++ EmptyString)%string = s.
Proof.
  induction s as [|c s IH]; simpl; [reflexivity | now rewrite IH].
Qed.

Lemma append_assoc (a b c : string) : ((a ++ b) ++ c)%string = (a ++ b ++ c)%string.
Proof.
  induction a as [|x a IH]; simpl; [reflexivity | now rewrite IH].
Qed.

Lemma startsWith_iff (p s : string) :
  startsWith p s = true <-> exists rest, s = (p ++ rest)%string.
Proof.
  unfold startsWith. revert s.
  induction p as [|c p IH]; intros s.
  - split; [intros _; now exists s | intros _; now destruct s].
  - destruct s as [|d s]; simpl.
    + split; [discriminate | intros [rest H]; discriminate].
    + destruct (Ascii.ascii_dec c d) as [->|Hne].
      * rewrite IH. split; intros [rest H]; exists rest; congruence.
      * split; [discriminate | intros [rest H]; congruence].
Qed.

Lemma startsWith_append (p s t : string) :
  startsWith p s = true -> startsWith p (s ++ t) = true.
Proof.
  rewrite !startsWith_iff. intros [rest ->].
  exists (rest ++ t)%string. apply append_assoc.
Qed.

Lemma includes_cons (needle : string) (c : ascii) (s : string) :
  includes needle s = true -> includes needle (String c s) = true.
Proof.
  intros H. cbn [includes]. rewrite H. apply orb_true_r.
Qed.

(** [includes] is substring search. *)
Lemma includes_iff (needle s : string) :
  includes needle s = true <-> hasSubstring needle s.
Proof.
  unfold hasSubstring. induction s as [|c s IH].
  - cbn [includes]. rewrite orb_false_r, startsWith_iff. split.
    + intros [rest H]. now exists EmptyString, rest.
    + intros [before [after H]].
      destruct before; simpl in H; [now exists after | discriminate].
  - split.
    + intros H. cbn [includes] in H. apply orb_true_iff in H as [H|H].
      * apply startsWith_iff in H as [rest H]. now exists EmptyString, rest.
      * apply IH in H as [before [after H]].
        exists (String c before), after. simpl. now rewrite H.
    + intros [before [after H]]. destruct before as [|d before]; simpl in H.
      * cbn [includes]. apply orb_true_iff. left. apply startsWith_iff.
        now exists after.
      * injection H as _ H. apply includes_cons, IH. now exists before, after.
Qed.

Lemma includes_append_r (needle s t : string) :
  includes needle s = true -> includes needle (s ++ t) = true.
Proof.
  rewrite !includes_iff. intros [before [after ->]].
  exists before, (after ++ t)%string. now rewrite !append_assoc.
Qed.

Lemma includes_trimStart (needle s : string) :
  includes needle (trimStart s) = true -> includes needle s = true.
Proof.
  induction s as [|c s IH]; [trivial|].
  cbn [trimStart]. destruct (isWhiteSpace c); [|trivial].
  intros H. now apply includes_cons, IH.
Qed.

(** What [trimEnd] removes is a suffix. *)
Lemma trimEnd_prefix (s : string) : exists t, s = (trimEnd s ++ t)%string.
Proof.
  induction s as [|c s [t IH]].
  - now exists EmptyString.
  - cbn [trimEnd]. destruct (trimEnd s) as [|d r] eqn:E.
    + destruct (isWhiteSpace c).
      * now exists (String c s).
      * exists s. reflexivity.
    + exists t. simpl. simpl in IH. now rewrite <- IH.
Qed.

Lemma includes_trimEnd (needle s : string) :
  includes needle (trimEnd s) = true -> includes needle s = true.
Proof.
  destruct (trimEnd_prefix s) as [t H]. intros Hin.
  rewrite H. now apply includes_append_r.
Qed.

(** A line holds whatever its trimmed form holds. *)
Lemma includes_trim (needle s : string) :
  includes needle (trim s) = true -> includes needle s = true.
Proof.
  unfold trim. intros H. now apply includes_trimStart, includes_trimEnd.
Qed.

End JsStringFacts.

(* ================================================================= *)
(** ** Facts about the parser *)

Module ParserFacts.
Import JsString JsStringFacts Parser ParserSpec ParserTactics.

(** *** One line at a time *)

Lemma problemLine_frame (line : string) (st : State) :
  features (problemLine line st) = features st /\
  currentFeature (problemLine line st) = currentFeature st /\
  currentSection (problemLine line st) = currentSection st /\
  topPriority (problemLine line st) = topPriority st.
Proof.
  unfold problemLine. split_ifs; simpl; auto.
Qed.

Lemma featureLine_frame (line : string) (st : State) :
  problems (featureLine line st) = problems st /\
  currentProblem (featureLine line st) = currentProblem st /\
  currentEvidence (featureLine line st) = currentEvidence st /\
  currentSection (featureLine line st) = currentSection st /\
  topPriority (featureLine line st) = topPriority st.
Proof.
  unfold featureLine. split_ifs; simpl; auto.
Qed.

Lemma topPriorityLine_frame (line : string) (st : State) :
  problems (topPriorityLine line st) = problems st /\
  currentProblem (topPriorityLine line st) = currentProblem st /\
  currentEvidence (topPriorityLine line st) = currentEvidence st /\
  features (topPriorityLine line st) = features st /\
  currentFeature (topPriorityLine line st) = currentFeature st /\
  currentSection (topPriorityLine line st) = currentSection st.
Proof.
  unfold topPriorityLine. split_ifs; simpl; auto 10.
Qed.

(** Outside their own section the three blocks of the loop body do nothing. *)
Lemma problemLine_elsewhere (line : string) (st : State) :
  inSection st problems_ = false -> problemLine line st = st.
Proof.
  intros H. unfold problemLine. now rewrite H.
Qed.

Lemma featureLine_elsewhere (line : string) (st : State) :
  inSection st features_ = false -> featureLine line st = st.
Proof.
  intros H. unfold featureLine. now rewrite H.
Qed.

Lemma topPriorityLine_elsewhere (line : string) (st : State) :
  inSection st topPriority_ = false -> topPriorityLine line st = st.
Proof.
  intros H. unfold topPriorityLine. now rewrite H.
Qed.

Lemma pushProblem_ext (st st' : State) :
  problems st' = problems st ->
  currentProblem st' = currentProblem st ->
  currentEvidence st' = currentEvidence st ->
  pushProblem st' = pushProblem st.
Proof.
  unfold pushProblem. now intros -> -> ->.
Qed.

Lemma pushFeature_ext (st st' : State) :
  features st' = features st ->
  currentFeature st' = currentFeature st ->
  pushFeature st' = pushFeature st.
Proof.
  unfold pushFeature. now intros -> ->.
Qed.

Lemma processLine_section (st : State) (raw : string) :
  currentSection (processLine st raw) = sectionAfter (currentSection st) (trim raw).
Proof.
  unfold processLine, sectionAfter.
  destruct (includes "PROBLEMS IDENTIFIED" (trim raw)); [reflexivity|].
  destruct (includes "RECOMMENDED FEATURES" (trim raw)); [reflexivity|].
  destruct (includes "TOP PRIORITY" (trim raw)); [reflexivity|].
  destruct (topPriorityLine_frame (trim raw) (featureLine (trim raw) (problemLine (trim raw) st)))
    as (_ & _ & _ & _ & _ & ->).
  destruct (featureLine_frame (trim raw) (problemLine (trim raw) st))
    as (_ & _ & _ & -> & _).
  now destruct (problemLine_frame (trim raw) st) as (_ & _ & -> & _).
Qed.

Lemma problemLine_titles (line : string) (st : State) :
  map title (pushProblem (problemLine line st)) =
  map title (pushProblem st) ++
  (if inSection st problems_ && startsWith "Problem:" line && truthy (fieldValue "Problem:" line)
   then [fieldValue "Problem:" line] else []).
Proof.
  unfold problemLine.
  destruct (inSection st problems_); cbn [andb]; [|now rewrite app_nil_r].
  destruct (startsWith "Problem:" line); cbn [andb].
  { unfold pushProblem at 1. cbn [currentProblem title problems currentEvidence].
    destruct (truthy (fieldValue "Problem:" line)).
    - now rewrite map_app.
    - now rewrite app_nil_r. }
  rewrite app_nil_r.
  unfold pushProblem. split_ifs; cbn in *; some_inj; cbn in *;
    rewrite ?map_app, ?app_nil_r; cbn; congruence.
Qed.

Lemma featureLine_names (line : string) (st : State) :
  map feature (pushFeature (featureLine line st)) =
  map feature (pushFeature st) ++
  (if inSection st features_ && startsWith "Feature:" line && truthy (fieldValue "Feature:" line)
   then [fieldValue "Feature:" line] else []).
Proof.
  unfold featureLine.
  destruct (inSection st features_); cbn [andb]; [|now rewrite app_nil_r].
  destruct (startsWith "Feature:" line); cbn [andb].
  { unfold pushFeature at 1. cbn [currentFeature feature features].
    destruct (truthy (fieldValue "Feature:" line)).
    - now rewrite map_app.
    - now rewrite app_nil_r. }
  rewrite app_nil_r.
  unfold pushFeature. split_ifs; cbn in *; some_inj; cbn in *;
    rewrite ?map_app, ?app_nil_r; cbn; congruence.
Qed.

Lemma inSection_isSection (st : State) (s : Section_) :
  inSection st s = isSection (currentSection st) s.
Proof. reflexivity. Qed.

Lemma processLine_titles (st : State) (raw : string) :
  map title (pushProblem (processLine st raw)) =
  map title (pushProblem st) ++ problemTitleOn (currentSection st) (trim raw).
Proof.
  unfold processLine, problemTitleOn, isHeader.
  destruct (includes "PROBLEMS IDENTIFIED" (trim raw)).
  { cbn [orb negb andb]. now rewrite app_nil_r. }
  destruct (includes "RECOMMENDED FEATURES" (trim raw)).
  { cbn [orb negb andb]. now rewrite app_nil_r. }
  destruct (includes "TOP PRIORITY" (trim raw)).
  { cbn [orb negb andb]. now rewrite app_nil_r. }
  cbn [orb negb andb].
  set (line := trim raw).
  destruct (topPriorityLine_frame line (featureLine line (problemLine line st)))
    as (Hp & Hc & He & _).
  destruct (featureLine_frame line (problemLine line st)) as (Hp' & Hc' & He' & _).
  rewrite (pushProblem_ext (problemLine line st)) by congruence.
  now rewrite problemLine_titles, inSection_isSection.
Qed.

Lemma processLine_names (st : State) (raw : string) :
  map feature (pushFeature (processLine st raw)) =
  map feature (pushFeature st) ++ featureNameOn (currentSection st) (trim raw).
Proof.
  unfold processLine, featureNameOn, isHeader.
  destruct (includes "PROBLEMS IDENTIFIED" (trim raw)).
  { cbn [orb negb andb]. now rewrite app_nil_r. }
  destruct (includes "RECOMMENDED FEATURES" (trim raw)).
  { cbn [orb negb andb]. now rewrite app_nil_r. }
  destruct (includes "TOP PRIORITY" (trim raw)).
  { cbn [orb negb andb]. now rewrite app_nil_r. }
  cbn [orb negb andb].
  set (line := trim raw).
  destruct (topPriorityLine_frame line (featureLine line (problemLine line st)))
    as (_ & _ & _ & Hf & Hc & _).
  destruct (problemLine_frame line st) as (Hf' & Hc' & Hs' & _).
  rewrite (pushFeature_ext (featureLine line (problemLine line st))) by congruence.
  rewrite featureLine_names.
  rewrite (pushFeature_ext st (problemLine line st)) by congruence.
  unfold inSection. now rewrite Hs'.
Qed.

(** *** The whole scan *)

Lemma scan_cons (raw : string) (rest : list string) (st : State) :
  scan (raw :: rest) st = scan rest (processLine st raw).
Proof. reflexivity. Qed.

Lemma scan_app (pre post : list string) (st : State) :
  scan (pre ++ post) st = scan post (scan pre st).
Proof. apply fold_left_app. Qed.

(** The problems of the result are those of the state the scan starts in,
    the one in progress included, and then those the lines open. *)
Lemma scan_titles (lines : list string) (st : State) :
  map title (r_problems (finish (scan lines st))) =
  map title (pushProblem st) ++ problemTitlesFound (currentSection st) lines.
Proof.
  revert st. induction lines as [|raw rest IH]; intros st.
  - cbn. now rewrite app_nil_r.
  - rewrite scan_cons, IH, processLine_titles, processLine_section.
    cbn [problemTitlesFound]. now rewrite app_assoc.
Qed.

Lemma scan_names (lines : list string) (st : State) :
  map feature (r_features (finish (scan lines st))) =
  map feature (pushFeature st) ++ featureNamesFound (currentSection st) lines.
Proof.
  revert st. induction lines as [|raw rest IH]; intros st.
  - cbn. now rewrite app_nil_r.
  - rewrite scan_cons, IH, processLine_names, processLine_section.
    cbn [featureNamesFound]. now rewrite app_assoc.
Qed.

Lemma includes_trim_false (needle raw : string) :
  includes needle raw = false -> includes needle (trim raw) = false.
Proof.
  intros H. destruct (includes needle (trim raw)) eqn:E; [|reflexivity].
  apply includes_trim in E. congruence.
Qed.

(** Without its header no line opens a problem. *)
Lemma problemTitlesFound_no_header (lines : list string) (sec : option Section_) :
  Forall (fun raw => includes "PROBLEMS IDENTIFIED" raw = false) lines ->
  isSection sec problems_ = false ->
  problemTitlesFound sec lines = [].
Proof.
  intros H. revert sec. induction H as [|raw rest Hraw _ IH]; intros sec Hsec.
  - reflexivity.
  - cbn [problemTitlesFound]. unfold problemTitleOn. rewrite Hsec.
    rewrite andb_false_r. cbn [andb app]. apply IH.
    unfold sectionAfter. rewrite (includes_trim_false _ _ Hraw).
    now repeat destruct (includes _ _).
Qed.

Lemma featureNamesFound_no_header (lines : list string) (sec : option Section_) :
  Forall (fun raw => includes "RECOMMENDED FEATURES" raw = false) lines ->
  isSection sec features_ = false ->
  featureNamesFound sec lines = [].
Proof.
  intros H. revert sec. induction H as [|raw rest Hraw _ IH]; intros sec Hsec.
  - reflexivity.
  - cbn [featureNamesFound]. unfold featureNameOn. rewrite Hsec.
    rewrite andb_false_r. cbn [andb app]. apply IH.
    unfold sectionAfter. rewrite (includes_trim_false _ _ Hraw).
    now repeat destruct (includes _ _).
Qed.

(** Without its header no line sets the top priority. *)
Lemma scan_topPriority_none (lines : list string) (st : State) :
  Forall (fun raw => includes "TOP PRIORITY" raw = false) lines ->
  inSection st topPriority_ = false ->
  topPriority st = None ->
  topPriority (scan lines st) = None.
Proof.
  intros H. revert st. induction H as [|raw rest Hraw _ IH]; intros st Hsec Htp.
  - exact Htp.
  - rewrite scan_cons. apply includes_trim_false in Hraw.
    assert (Hs : currentSection (processLine st raw) = sectionAfter (currentSection st) (trim raw))
      by apply processLine_section.
    apply IH.
    + unfold inSection. rewrite Hs. unfold sectionAfter. rewrite Hraw.
      now repeat destruct (includes _ _).
    + unfold processLine. cbv zeta. rewrite Hraw.
      destruct (includes "PROBLEMS IDENTIFIED" (trim raw)); [exact Htp|].
      destruct (includes "RECOMMENDED FEATURES" (trim raw)); [exact Htp|].
      set (line := trim raw).
      destruct (featureLine_frame line (problemLine line st)) as (_ & _ & _ & Hs1 & Ht1).
      destruct (problemLine_frame line st) as (_ & _ & Hs2 & Ht2).
      rewrite topPriorityLine_elsewhere; [congruence|].
      unfold inSection. now rewrite Hs1, Hs2.
Qed.

Lemma problemTitlesFound_truthy (lines : list string) (sec : option Section_) :
  Forall (fun t => truthy t = true) (problemTitlesFound sec lines).
Proof.
  revert sec. induction lines as [|raw rest IH]; intros sec; [constructor|].
  cbn [problemTitlesFound]. apply Forall_app. split; [|apply IH].
  unfold problemTitleOn.
  destruct (truthy (fieldValue "Problem:" (trim raw))) eqn:E.
  - destruct (_ && _); repeat constructor. exact E.
  - rewrite andb_false_r. constructor.
Qed.

Lemma featureNamesFound_truthy (lines : list string) (sec : option Section_) :
  Forall (fun t => truthy t = true) (featureNamesFound sec lines).
Proof.
  revert sec. induction lines as [|raw rest IH]; intros sec; [constructor|].
  cbn [featureNamesFound]. apply Forall_app. split; [|apply IH].
  unfold featureNameOn.
  destruct (truthy (fieldValue "Feature:" (trim raw))) eqn:E.
  - destruct (_ && _); repeat constructor. exact E.
  - rewrite andb_false_r. constructor.
Qed.

(** *** The claims about the parser *)

(** The invariant of the data model: a problem is emitted only with a title
    that is not empty, a feature only with a name that is not empty. *)
Theorem emitted_records_are_named (text_ : string) :
  Forall (fun p => truthy (title p) = true) (r_problems (parseAnalysisResults text_)) /\
  Forall (fun f => truthy (feature f) = true) (r_features (parseAnalysisResults text_)).
Proof.
  unfold parseAnalysisResults. split.
  - apply Forall_map with (f := title) (P := fun t => truthy t = true).
    rewrite scan_titles. apply problemTitlesFound_truthy.
  - apply Forall_map with (f := feature) (P := fun t => truthy t = true).
    rewrite scan_names. apply featureNamesFound_truthy.
Qed.


(** C2. The worked example of the specification parses to exactly one
    problem, titled "Slow onboarding", whose evidence is the one quoted
    string "Users get lost" (quotes kept); exactly one feature, "Guided
    checklist", of priority P0; and a top priority whose [what] is "Guided
    checklist". *)
Theorem example_parses :
  parseAnalysisResults exampleText =
  mkParsedResults
    [mkProblem "Slow onboarding" (Some "2/3") (Some "High")
               (Some [quoted "Users get lost"])]
    [mkFeature "Guided checklist" (Some "Reduces confusion") (Some "Small") (Some "P0")]
    (Some (mkTopPriority "Guided checklist" "Biggest complaint" "High"
                         (quoted "Users get lost"))).
Proof.
  unfold parseAnalysisResults, exampleText. vm_compute. reflexivity.
Qed.

(** C6, as the code has it. A line that holds "PROBLEMS IDENTIFIED" sets the
    current section to the problems section and leaves everything else as
    it was: the problem and the feature in progress, the evidence gathered
    and the records already collected. So the records in progress before
    the line are emitted all the same: the problems of the result are those
    the state before the line would emit, then those the later lines open,
    and likewise for the features. *)
Theorem problems_header_keeps_state (pre : list string) (raw : string) (post : list string) :
  includes "PROBLEMS IDENTIFIED" (trim raw) = true ->
  processLine (scan pre initial) raw = enterProblems (scan pre initial) /\
  map title (r_problems (finish (scan (pre ++ raw :: post) initial))) =
    map title (pushProblem (scan pre initial)) ++ problemTitlesFound (Some problems_) post /\
  map feature (r_features (finish (scan (pre ++ raw :: post) initial))) =
    map feature (pushFeature (scan pre initial)) ++ featureNamesFound (Some problems_) post.
Proof.
  intros Hhead.
  assert (Hstep : processLine (scan pre initial) raw = enterProblems (scan pre initial)).
  { unfold processLine. cbv zeta. now rewrite Hhead. }
  split; [exact Hstep|].
  rewrite scan_app, scan_cons, Hstep, scan_titles, scan_names.
  split; reflexivity.
Qed.

Lemma problems_header_keeps_state_witness :
  map feature
      (r_features (finish (scan (["RECOMMENDED FEATURES"; "Feature: Export"]
                                   ++ "PROBLEMS IDENTIFIED" :: ["Problem: Login"]) initial))) =
  map feature (pushFeature (scan ["RECOMMENDED FEATURES"; "Feature: Export"] initial))
    ++ featureNamesFound (Some problems_) ["Problem: Login"].
Proof.
  apply (problems_header_keeps_state
           ["RECOMMENDED FEATURES"; "Feature: Export"] "PROBLEMS IDENTIFIED" ["Problem: Login"]).
  vm_compute. reflexivity.
Defined.

(** C6, as the claim states it, fails. A feature opened before the header
    line is emitted although nothing follows the line, and evidence gathered
    before the line stays with the problem in progress; the result differs
    from the one a scan that dropped that state would give. *)
Lemma problems_header_discards_nothing :
  r_features (parseAnalysisResults
                (join nl ["RECOMMENDED FEATURES"; "Feature: Export"; "PROBLEMS IDENTIFIED"])) =
    [mkFeature "Export" None None None] /\
  r_problems (parseAnalysisResults
                (join nl ["PROBLEMS IDENTIFIED"; "Problem: Login"; "- first";
                          "PROBLEMS IDENTIFIED"; "- second"])) =
    [mkProblem "Login" None None (Some ["first"; "second"])] /\
  finish (scan (["RECOMMENDED FEATURES"; "Feature: Export"] ++ "PROBLEMS IDENTIFIED" :: []) initial) <>
  finish (scan [] (discardSectionState (scan ["RECOMMENDED FEATURES"; "Feature: Export"] initial))).
Proof.
  repeat split; try (vm_compute; reflexivity).
  vm_compute. discriminate.
Qed.

(** C7. The parser is a total function of the text. The problems and the
    features of the result are exactly those the lines open, in order; a
    text without a line that holds a section's header gives an empty
    collection for that section, and a text without a "TOP PRIORITY" line
    gives no top priority while its problems and features are still all
    there. *)
Theorem parser_never_fails (text_ : string) :
  map title (r_problems (parseAnalysisResults text_)) =
    problemTitlesFound None (split_lines text_) /\
  map feature (r_features (parseAnalysisResults text_)) =
    featureNamesFound None (split_lines text_) /\
  (Forall (fun raw => includes "PROBLEMS IDENTIFIED" raw = false) (split_lines text_) ->
   r_problems (parseAnalysisResults text_) = []) /\
  (Forall (fun raw => includes "RECOMMENDED FEATURES" raw = false) (split_lines text_) ->
   r_features (parseAnalysisResults text_) = []) /\
  (Forall (fun raw => includes "TOP PRIORITY" raw = false) (split_lines text_) ->
   r_topPriority (parseAnalysisResults text_) = None /\
   map title (r_problems (parseAnalysisResults text_)) =
     problemTitlesFound None (split_lines text_) /\
   map feature (r_features (parseAnalysisResults text_)) =
     featureNamesFound None (split_lines text_)).
Proof.
  unfold parseAnalysisResults.
  assert (Ht := scan_titles (split_lines text_) initial).
  assert (Hn := scan_names (split_lines text_) initial).
  cbn [initial pushProblem pushFeature currentProblem currentFeature problems features
       currentSection map app] in Ht, Hn.
  repeat split; try assumption.
  - intros H. apply map_eq_nil with (f := title).
    rewrite Ht. now apply problemTitlesFound_no_header.
  - intros H. apply map_eq_nil with (f := feature).
    rewrite Hn. now apply featureNamesFound_no_header.
  - cbn [finish r_topPriority]. now apply scan_topPriority_none.
Qed.

Lemma parser_never_fails_witness :
  r_topPriority (parseAnalysisResults
                   (join nl ["PROBLEMS IDENTIFIED"; "Problem: Login"; "Impact: High";
                             "RECOMMENDED FEATURES"; "Feature: Export"])) = None /\
  map title (r_problems (parseAnalysisResults
                   (join nl ["PROBLEMS IDENTIFIED"; "Problem: Login"; "Impact: High";
                             "RECOMMENDED FEATURES"; "Feature: Export"]))) = ["Login"] /\
  map feature (r_features (parseAnalysisResults
                   (join nl ["PROBLEMS IDENTIFIED"; "Problem: Login"; "Impact: High";
                             "RECOMMENDED FEATURES"; "Feature: Export"]))) = ["Export"].
Proof.
  destruct (parser_never_fails
              (join nl ["PROBLEMS IDENTIFIED"; "Problem: Login"; "Impact: High";
                        "RECOMMENDED FEATURES"; "Feature: Export"]))
    as (_ & _ & _ & _ & H).
  destruct H as (Htop & Hp & Hf).
  - vm_compute. repeat constructor.
  - split; [exact Htop|]. split; [rewrite Hp | rewrite Hf]; vm_compute; reflexivity.
Defined.

End ParserFacts.

(* ================================================================= *)
(** ** Facts about [retryWithBackoff] *)

Module RetryFacts.
Import JsString JsStringFacts Retry RetrySpec.

Open Scope Z_scope.

(** *** The classification *)

Lemma strictEqZ_iff (x : option Z) (n : Z) : strictEqZ x n = true <-> x = Some n.
Proof.
  destruct x as [v|]; simpl.
  - rewrite Z.eqb_eq. split; congruence.
  - split; discriminate.
Qed.

Lemma strictEqString_iff (x : option string) (s : string) :
  strictEqString x s = true <-> x = Some s.
Proof.
  destruct x as [v|]; simpl.
  - rewrite String.eqb_eq. split; congruence.
  - split; discriminate.
Qed.

Lemma messageIncludes_iff (needle : string) (error : JsError) :
  messageIncludes needle error = true <->
  exists m, message error = Some m /\ hasSubstring needle m.
Proof.
  unfold messageIncludes. destruct (message error) as [m|].
  - rewrite includes_iff. split.
    + intros H. now exists m.
    + intros [m' [E H]]. now injection E as ->.
  - split; [discriminate | intros [m [E _]]; discriminate].
Qed.

Lemma isOverloaded_iff (error : JsError) :
  isOverloaded error = true <-> indicatesOverload error.
Proof.
  unfold isOverloaded, indicatesOverload.
  now rewrite !orb_true_iff, !strictEqZ_iff, strictEqString_iff, messageIncludes_iff, or_assoc.
Qed.

Lemma isRateLimit_iff (error : JsError) :
  isRateLimit error = true <-> indicatesRateLimit error.
Proof.
  unfold isRateLimit, indicatesRateLimit.
  now rewrite orb_true_iff, strictEqZ_iff, strictEqString_iff.
Qed.

(** *** The loop *)

Section Loop.

Context {T : Type}.
Variable fn : list Event -> Outcome T.
Variables maxRetries baseDelay : Z.

Local Abbreviation attempts := (attempts fn maxRetries baseDelay).

(** One turn of the loop when the operation resolves. *)
Lemma attempts_resolved (fuel : nat) (attempt : Z) (h : list Event) (v : T) :
  attempt < maxRetries -> fn h = Resolved v ->
  attempts (S fuel) attempt h = Some (Returned v, h ++ [Call]).
Proof.
  intros Hlt Hfn. cbn [Retry.attempts].
  apply Z.ltb_lt in Hlt. now rewrite Hlt, Hfn.
Qed.

(** One turn when it is rejected and the loop goes on. *)
Lemma attempts_retry (fuel : nat) (attempt : Z) (h : list Event) (error : JsError) :
  attempt < maxRetries - 1 -> fn h = Rejected error ->
  isOverloaded error || isRateLimit error = true ->
  attempts (S fuel) attempt h =
  attempts fuel (attempt + 1)
           (h ++ [Call; LogRetry (baseDelay * 2 ^ attempt) (attempt + 1) maxRetries;
                  Sleep (baseDelay * 2 ^ attempt)]).
Proof.
  intros Hlt Hfn Hre. cbn [Retry.attempts].
  assert (H1 : (attempt <? maxRetries) = true) by (apply Z.ltb_lt; lia).
  assert (H2 : (attempt <? maxRetries - 1) = true) by (apply Z.ltb_lt; lia).
  now rewrite H1, Hfn, Hre, H2.
Qed.

(** One turn when it is rejected and the loop stops. *)
Lemma attempts_threw (fuel : nat) (attempt : Z) (h : list Event) (error : JsError) :
  attempt < maxRetries -> fn h = Rejected error ->
  (isOverloaded error || isRateLimit error) && (attempt <? maxRetries - 1) = false ->
  attempts (S fuel) attempt h = Some (Threw error, h ++ [Call]).
Proof.
  intros Hlt Hfn Hre. cbn [Retry.attempts].
  apply Z.ltb_lt in Hlt. now rewrite Hlt, Hfn, Hre.
Qed.

(** The fuel [retryWithBackoff] gives the loop is enough. *)
Lemma attempts_total (fuel : nat) (attempt : Z) (h : list Event) :
  (Z.to_nat (maxRetries - attempt) < fuel)%nat ->
  exists x h', attempts fuel attempt h = Some (x, h').
Proof.
  revert attempt h. induction fuel as [|fuel IH]; intros attempt h Hfuel; [lia|].
  cbn [Retry.attempts].
  destruct (attempt <? maxRetries) eqn:Hlt; [|now eauto].
  apply Z.ltb_lt in Hlt.
  destruct (fn h) as [v|error]; [now eauto|].
  destruct ((isOverloaded error || isRateLimit error) && (attempt <? maxRetries - 1));
    [|now eauto].
  apply IH. lia.
Qed.

(** From a turn that is taken, the loop is left by [return] or [throw]. *)
Lemma attempts_no_fall_through (fuel : nat) (attempt : Z) (h h' : list Event) (x : LoopExit T) :
  attempt < maxRetries ->
  attempts fuel attempt h = Some (x, h') -> x <> FellThrough.
Proof.
  revert attempt h. induction fuel as [|fuel IH]; intros attempt h Hlt; [discriminate|].
  cbn [Retry.attempts].
  assert (H1 : (attempt <? maxRetries) = true) by now apply Z.ltb_lt.
  rewrite H1. destruct (fn h) as [v|error].
  - intros [= <- _]. discriminate.
  - destruct (isOverloaded error || isRateLimit error); cbn [andb].
    + destruct (attempt <? maxRetries - 1) eqn:H2.
      * apply IH. apply Z.ltb_lt in H2. lia.
      * intros [= <- _]. discriminate.
    + intros [= <- _]. discriminate.
Qed.

(** A value the loop returns is one the operation resolved to. *)
Lemma attempts_returned (fuel : nat) (attempt : Z) (h h' : list Event) (v : T) :
  attempts fuel attempt h = Some (Returned v, h') ->
  exists h1, fn h1 = Resolved v /\ h' = h1 ++ [Call].
Proof.
  revert attempt h. induction fuel as [|fuel IH]; intros attempt h; [discriminate|].
  cbn [Retry.attempts].
  destruct (attempt <? maxRetries); [|discriminate].
  destruct (fn h) as [v0|error] eqn:Hfn.
  - intros [= <- <-]. now exists h.
  - destruct ((isOverloaded error || isRateLimit error) && (attempt <? maxRetries - 1));
      [apply IH | discriminate].
Qed.

End Loop.

Lemma sleepsOf_app (a b : list Event) : sleepsOf (a ++ b) = sleepsOf a ++ sleepsOf b.
Proof.
  induction a as [|e a IH]; [reflexivity|].
  destruct e; simpl; now rewrite ?IH.
Qed.

Lemma sleepsOf_retryHistory (maxRetries baseDelay : Z) (k : nat) :
  sleepsOf (retryHistory maxRetries baseDelay k) =
  map (fun j => baseDelay * 2 ^ Z.of_nat j) (seq 0 k).
Proof.
  induction k as [|k IH]; [reflexivity|].
  cbn [retryHistory]. rewrite sleepsOf_app, IH, seq_S, map_app. reflexivity.
Qed.

(** The loop before a success that comes after [k] retried failures. *)
Lemma attempts_succeeds_after {T : Type} (fn : list Event -> Outcome T)
      (maxRetries baseDelay : Z) (h0 : list Event) (k : nat) (v : T) :
  Z.of_nat k < maxRetries ->
  (forall j, (j < k)%nat ->
     exists error, fn (h0 ++ retryHistory maxRetries baseDelay j) = Rejected error /\
                   isOverloaded error || isRateLimit error = true) ->
  fn (h0 ++ retryHistory maxRetries baseDelay k) = Resolved v ->
  forall (n a : nat) (fuel : nat),
    (a + n = k)%nat -> (n < fuel)%nat ->
    attempts fn maxRetries baseDelay fuel (Z.of_nat a)
             (h0 ++ retryHistory maxRetries baseDelay a) =
    Some (Returned v, h0 ++ retryHistory maxRetries baseDelay k ++ [Call]).
Proof.
  intros Hk Hfail Hok. induction n as [|n IH]; intros a fuel Ha Hfuel.
  - replace a with k by lia. destruct fuel as [|fuel]; [lia|].
    rewrite (attempts_resolved fn maxRetries baseDelay fuel _ _ v Hk Hok).
    now rewrite app_assoc.
  - destruct fuel as [|fuel]; [lia|].
    destruct (Hfail a) as [error [Hfn Hre]]; [lia|].
    rewrite (attempts_retry fn maxRetries baseDelay fuel _ _ error); [|lia|assumption..].
    replace (Z.of_nat a + 1) with (Z.of_nat (S a)) by lia.
    rewrite <- app_assoc.
    specialize (IH (S a) fuel). cbn [retryHistory] in IH.
    replace (Z.of_nat a + 1) with (Z.of_nat (S a)) in IH by lia.
    apply IH; lia.
Qed.

(** *** The claims about [retryWithBackoff] *)

(** C1. Whatever the operation, the attempt budget (at least one) and the
    base delay: when the operation is rejected with a retryable error on
    each of its first [k] attempts, [k] below the budget, and resolves on
    the next one, [retryWithBackoff] resolves to that value; the events it
    adds are, for each [j < k] in turn, the failed attempt, the log line and
    a sleep of [baseDelay * 2^j] milliseconds, and then the attempt that
    succeeds, so the delays slept are exactly [baseDelay * 2^j] for
    [j = 0 .. k-1], in this order. *)
Theorem retry_succeeds_after_backoff {T : Type} (fn : list Event -> Outcome T)
        (maxRetries baseDelay : Z) (h0 : list Event) (k : nat) (v : T) :
  1 <= maxRetries ->
  Z.of_nat k < maxRetries ->
  (forall j, (j < k)%nat ->
     exists error, fn (h0 ++ retryHistory maxRetries baseDelay j) = Rejected error /\
                   isOverloaded error || isRateLimit error = true) ->
  fn (h0 ++ retryHistory maxRetries baseDelay k) = Resolved v ->
  retryWithBackoff fn maxRetries baseDelay h0 =
    Some (Resolved v, h0 ++ retryHistory maxRetries baseDelay k ++ [Call]) /\
  sleepsOf (h0 ++ retryHistory maxRetries baseDelay k ++ [Call]) =
    sleepsOf h0 ++ map (fun j => baseDelay * 2 ^ Z.of_nat j) (seq 0 k).
Proof.
  intros Hmax Hk Hfail Hok. split.
  - unfold retryWithBackoff.
    assert (H := attempts_succeeds_after fn maxRetries baseDelay h0 k v Hk Hfail Hok
                   k 0%nat (S (Z.to_nat maxRetries))).
    cbn [retryHistory Z.of_nat] in H. rewrite app_nil_r in H.
    rewrite H; [reflexivity | lia | lia].
  - rewrite !sleepsOf_app, sleepsOf_retryHistory. cbn [sleepsOf].
    now rewrite app_nil_r.
Qed.

Lemma retry_succeeds_after_backoff_witness :
  retryWithBackoff (failsThenResolves 2 overloaded529 "done"%string) 3 1500 [] =
    Some (Resolved "done"%string,
          [Call; LogRetry 1500 1 3; Sleep 1500; Call; LogRetry 3000 2 3; Sleep 3000; Call]) /\
  sleepsOf [Call; LogRetry 1500 1 3; Sleep 1500; Call; LogRetry 3000 2 3; Sleep 3000; Call] =
    [1500; 3000].
Proof.
  apply (retry_succeeds_after_backoff
           (failsThenResolves 2 overloaded529 "done"%string) 3 1500 [] 2 "done"%string).
  - lia.
  - lia.
  - intros j Hj. exists overloaded529.
    destruct j as [|[|j]]; [split; reflexivity | split; reflexivity | lia].
  - reflexivity.
Defined.

(** C3. When the first attempt is rejected with an error that is neither an
    overload nor a rate-limit error, [retryWithBackoff] is rejected with
    that very error, and the one attempt is all that happened: no sleep, no
    log line, no second attempt. *)
Theorem retry_fails_fast {T : Type} (fn : list Event -> Outcome T)
        (maxRetries baseDelay : Z) (h : list Event) (error : JsError) :
  1 <= maxRetries ->
  fn h = Rejected error ->
  isOverloaded error = false ->
  isRateLimit error = false ->
  retryWithBackoff fn maxRetries baseDelay h = Some (Rejected error, h ++ [Call]).
Proof.
  intros Hmax Hfn Ho Hr. unfold retryWithBackoff.
  rewrite (attempts_threw fn maxRetries baseDelay _ 0 h error); [reflexivity|lia|assumption|].
  now rewrite Ho, Hr.
Qed.

Lemma retry_fails_fast_witness :
  retryWithBackoff (failsThenResolves 1 badRequest400 "done"%string) 3 1500 [] =
    Some (Rejected badRequest400, [Call]).
Proof.
  apply (retry_fails_fast (failsThenResolves 1 badRequest400 "done"%string) 3 1500 []
                          badRequest400).
  - lia.
  - reflexivity.
  - reflexivity.
  - reflexivity.
Defined.

(** C5. The test of the [catch] block holds of an error exactly when the
    error indicates overload (status 529, type tag [overloaded_error], or a
    message that holds "overloaded") or rate limiting (status 429 or type
    tag [rate_limit_error]). An error of that kind is retried while an
    attempt remains, after a sleep; every other error ends the loop at once,
    thrown as it is, whatever the attempt. *)
Theorem retryable_classification (error : JsError) :
  (isOverloaded error || isRateLimit error = true <->
   indicatesOverload error \/ indicatesRateLimit error) /\
  (forall (T : Type) (fn : list Event -> Outcome T) (maxRetries baseDelay : Z)
          (fuel : nat) (attempt : Z) (h : list Event),
     fn h = Rejected error ->
     indicatesOverload error \/ indicatesRateLimit error ->
     attempt < maxRetries - 1 ->
     attempts fn maxRetries baseDelay (S fuel) attempt h =
     attempts fn maxRetries baseDelay fuel (attempt + 1)
              (h ++ [Call; LogRetry (baseDelay * 2 ^ attempt) (attempt + 1) maxRetries;
                     Sleep (baseDelay * 2 ^ attempt)])) /\
  (forall (T : Type) (fn : list Event -> Outcome T) (maxRetries baseDelay : Z)
          (fuel : nat) (attempt : Z) (h : list Event),
     fn h = Rejected error ->
     ~ (indicatesOverload error \/ indicatesRateLimit error) ->
     attempt < maxRetries ->
     attempts fn maxRetries baseDelay (S fuel) attempt h = Some (Threw error, h ++ [Call])).
Proof.
  assert (Hiff : isOverloaded error || isRateLimit error = true <->
                 indicatesOverload error \/ indicatesRateLimit error).
  { now rewrite orb_true_iff, isOverloaded_iff, isRateLimit_iff. }
  split; [exact Hiff|]. split.
  - intros T fn maxRetries baseDelay fuel attempt h Hfn Hind Hlt.
    apply (attempts_retry fn maxRetries baseDelay fuel attempt h error Hlt Hfn).
    now apply Hiff.
  - intros T fn maxRetries baseDelay fuel attempt h Hfn Hind Hlt.
    apply (attempts_threw fn maxRetries baseDelay fuel attempt h error Hlt Hfn).
    destruct (isOverloaded error || isRateLimit error) eqn:E; [|reflexivity].
    exfalso. apply Hind, Hiff. reflexivity.
Qed.

Lemma retryable_classification_witness :
  (indicatesOverload overloaded529 \/ indicatesRateLimit overloaded529) /\
  attempts (failsThenResolves 1 badRequest400 "done"%string) 3 1500 4 0 [] =
    Some (Threw badRequest400, [Call]).
Proof.
  split.
  - apply (proj1 (retryable_classification overloaded529)). reflexivity.
  - apply (proj2 (proj2 (retryable_classification badRequest400))
             string (failsThenResolves 1 badRequest400 "done"%string) 3 1500 3%nat 0 []).
    + reflexivity.
    + intros H. apply (proj1 (retryable_classification badRequest400)) in H.
      discriminate H.
    + lia.
Defined.

(** C9. [retryWithBackoff] always gives a result, and the result is never
    an undefined value: it is a value the operation resolved to, or a
    rejection. With a budget of at least one attempt the loop is always
    left by [return] or [throw]; and whenever the loop is left by its
    condition, as it is when the budget is below one, the function is
    rejected with the error "Max retries exceeded". *)
Theorem retry_never_undefined {T : Type} (fn : list Event -> Outcome T)
        (maxRetries baseDelay : Z) (h : list Event) :
  (exists r h', retryWithBackoff fn maxRetries baseDelay h = Some (r, h')) /\
  (forall v h', retryWithBackoff fn maxRetries baseDelay h = Some (Resolved v, h') ->
     exists h1, fn h1 = Resolved v /\ h' = h1 ++ [Call]) /\
  (1 <= maxRetries ->
     exists x h', attempts fn maxRetries baseDelay (S (Z.to_nat maxRetries)) 0 h = Some (x, h') /\
                  x <> FellThrough) /\
  (forall h', attempts fn maxRetries baseDelay (S (Z.to_nat maxRetries)) 0 h =
                Some (FellThrough, h') ->
     retryWithBackoff fn maxRetries baseDelay h =
       Some (Rejected (newError "Max retries exceeded"), h')) /\
  (maxRetries <= 0 ->
     retryWithBackoff fn maxRetries baseDelay h =
       Some (Rejected (newError "Max retries exceeded"), h)).
Proof.
  destruct (attempts_total fn maxRetries baseDelay (S (Z.to_nat maxRetries)) 0 h)
    as (x & h1 & Hrun); [lia|].
  repeat split.
  - unfold retryWithBackoff. rewrite Hrun. destruct x; eauto.
  - intros v h'. unfold retryWithBackoff. rewrite Hrun.
    destruct x; intros [= <- <-] || intros [=].
    now apply (attempts_returned fn maxRetries baseDelay _ _ _ _ _ Hrun).
  - intros Hmax. exists x, h1. split; [exact Hrun|].
    apply (attempts_no_fall_through fn maxRetries baseDelay
             (S (Z.to_nat maxRetries)) 0 h h1 x); [lia|exact Hrun].
  - intros h' H. unfold retryWithBackoff. now rewrite H.
  - intros Hmax. unfold retryWithBackoff. cbn [attempts].
    assert (H : (0 <? maxRetries) = false) by (apply Z.ltb_ge; lia).
    now rewrite H.
Qed.

Lemma retry_never_undefined_witness :
  (exists x h', attempts (failsThenResolves 5 overloaded529 "done"%string) 3 1500
                         (S (Z.to_nat 3)) 0 [] = Some (x, h') /\ x <> FellThrough) /\
  retryWithBackoff (failsThenResolves 5 overloaded529 "done"%string) 0 1500 [] =
    Some (Rejected (newError "Max retries exceeded"), []).
Proof.
  split.
  - apply (retry_never_undefined (failsThenResolves 5 overloaded529 "done"%string) 3 1500 []).
    lia.
  - apply (retry_never_undefined (failsThenResolves 5 overloaded529 "done"%string) 0 1500 []).
    lia.
Defined.

End RetryFacts.

(* ================================================================= *)
(** ** Facts about the [POST] handler *)

Module RouteFacts.
Import JsString JsStringFacts Retry Route RouteSpec.

Open Scope Z_scope.

(** *** Validation *)

Lemma keeps_iff_nonBlank (s : string) :
  truthy s && (0 <? String.length (trim s))%nat = nonBlank s.
Proof.
  unfold nonBlank. destruct s as [|c s]; [reflexivity|].
  cbn [truthy andb]. destruct (trim (String c s)); reflexivity.
Qed.

Lemma filterValid_blank (items : list JsValue) :
  Forall blankEntry items -> filterValid items = Resolved [].
Proof.
  induction 1 as [|i rest [s [-> Hs]] _ IH]; [reflexivity|].
  cbn [filterValid]. rewrite IH, keeps_iff_nonBlank. unfold nonBlank.
  now rewrite Hs.
Qed.

(** On a list of strings the filter keeps the transcripts that are not blank. *)
Lemma filterValid_strings (transcripts : list string) :
  filterValid (map JString transcripts) = Resolved (filter nonBlank transcripts).
Proof.
  induction transcripts as [|s rest IH]; [reflexivity|].
  cbn [map filterValid filter]. rewrite IH, keeps_iff_nonBlank.
  now destruct (nonBlank s).
Qed.

Lemma invalidInput_cases (interviews : JsValue) :
  interviews = JUndefined \/
  (forall items, interviews <> JArray items) \/
  interviews = JArray [] ->
  invalidInput interviews = true.
Proof.
  unfold invalidInput. intros [->|[H| ->]]; [reflexivity| |reflexivity].
  destruct interviews; try apply orb_true_r. now destruct (H items).
Qed.

(** *** The claims about the handler *)

(** C4, as the code has it. When the body of the request was read and is an object
    or another value that can be destructured: if its [interviews] value is
    missing, is no list or is an empty list, [POST] answers 400 with the
    message that asks for a transcript; if it is a list that is not empty
    and every entry is blank after trimming, [POST] answers 400 with another
    message, the one about valid transcripts. Either way the history is left
    as it was: the remote call was not made, whatever it would have given.
    When the body is [null] the destructuring throws, and the answer is 500
    with the general message, again without a remote call. *)
Theorem POST_rejects_before_remote_call
        (create : string -> list Event -> Outcome Message)
        (json : JsValue) (h : list Event) :
  (forall interviews, destructureInterviews json = Resolved interviews ->
     (interviews = JUndefined \/
      (forall items, interviews <> JArray items) \/
      interviews = JArray [] ->
      POST create (Resolved json) h =
        Some (Resolved (mkResponse (ErrorBody "Please provide at least one interview transcript") 400),
              h)) /\
     (forall items, interviews = JArray items -> items <> [] -> Forall blankEntry items ->
      POST create (Resolved json) h =
        Some (Resolved (mkResponse (ErrorBody "No valid interview transcripts provided") 400),
              h))) /\
  (forall error, destructureInterviews json = Rejected error ->
     POST create (Resolved json) h =
       Some (Resolved (mkResponse (ErrorBody "Failed to analyze interviews. Please try again.") 500),
             h ++ [LogError error])) /\
  ErrorBody "Please provide at least one interview transcript" <>
  ErrorBody "No valid interview transcripts provided".
Proof.
  split; [|split].
  - intros interviews Hd. split.
    + intros Hbad. unfold POST, POST_try.
      now rewrite Hd, (invalidInput_cases _ Hbad).
    + intros items -> Hne Hblank. unfold POST, POST_try. rewrite Hd.
      destruct items as [|i rest]; [congruence|].
      cbn [invalidInput falsy orb].
      now rewrite (filterValid_blank _ Hblank).
  - intros error Hd. unfold POST, POST_try. rewrite Hd.
    destruct json; cbn in Hd; try discriminate Hd; now injection Hd as <-.
  - discriminate.
Qed.

Lemma POST_rejects_before_remote_call_witness :
  POST (respondsWith []) (Resolved (JObject [])) [] =
    Some (Resolved (mkResponse (ErrorBody "Please provide at least one interview transcript") 400),
          []) /\
  POST (respondsWith []) (Resolved (requestOf [JString "  "; JString EmptyString])) [] =
    Some (Resolved (mkResponse (ErrorBody "No valid interview transcripts provided") 400), []).
Proof.
  split.
  - apply (proj1 (proj1 (POST_rejects_before_remote_call (respondsWith []) (JObject []) [])
                        JUndefined eq_refl)).
    left. reflexivity.
  - apply (proj2 (proj1 (POST_rejects_before_remote_call
                           (respondsWith []) (requestOf [JString "  "; JString EmptyString]) [])
                        (JArray [JString "  "; JString EmptyString]) eq_refl)
             [JString "  "; JString EmptyString]).
    + reflexivity.
    + discriminate.
    + repeat constructor; eexists; split; reflexivity.
Defined.

(** C4, as the claim states it, fails. With the body [null] no [interviews]
    value is there, yet the answer is not 400: the destructuring throws and
    the [catch] block answers 500 with the general message. The same happens
    when the body cannot be read as JSON. *)
Lemma POST_answers_500_without_body :
  POST (respondsWith []) (Resolved JNull) [] =
    Some (Resolved (mkResponse (ErrorBody "Failed to analyze interviews. Please try again.") 500),
          [LogError (typeError "Cannot destructure property 'interviews' of '(intermediate value)' as it is null.")]) /\
  POST (respondsWith []) (Rejected (newError "Unexpected end of JSON input")) [] =
    Some (Resolved (mkResponse (ErrorBody "Failed to analyze interviews. Please try again.") 500),
          [LogError (newError "Unexpected end of JSON input")]).
Proof.
  split; reflexivity.
Qed.

(** C10. When the request is valid and the remote call resolves, through
    the retry loop, to a message whose content is empty or whose first block
    is no text block, [POST] answers with success, an empty analysis and the
    number of transcripts that passed the filter, which for a list of
    strings is the number of those that are not blank. *)
Theorem POST_accepts_text_free_message
        (create : string -> list Event -> Outcome Message)
        (json : JsValue) (items : list JsValue) (validInterviews : list string)
        (h h' : list Event) (message_ : Message) :
  destructureInterviews json = Resolved (JArray items) ->
  filterValid items = Resolved validInterviews ->
  validInterviews <> [] ->
  retryWithBackoff (create (prompt validInterviews)) 3 1500 h = Some (Resolved message_, h') ->
  content message_ = Some [] \/
  (exists first rest, content message_ = Some (first :: rest) /\ block_type first <> "text"%string) ->
  POST create (Resolved json) h =
    Some (Resolved (mkResponse (SuccessBody EmptyString (List.length validInterviews)) 200),
          h' ++ [LogAnalysis 0 EmptyString]) /\
  (forall transcripts, items = map JString transcripts ->
     List.length validInterviews = List.length (filter nonBlank transcripts)).
Proof.
  intros Hd Hf Hne Hcall Hcontent. split.
  - assert (Hanalysis : analysisOf message_ = EmptyString).
    { unfold analysisOf. destruct Hcontent as [-> | (first & rest & -> & Htype)];
        [reflexivity|].
      apply String.eqb_neq in Htype. now rewrite Htype. }
    unfold POST, POST_try. rewrite Hd.
    assert (Hin : invalidInput (JArray items) = false).
    { destruct items as [|i rest]; [|reflexivity].
      cbn in Hf. injection Hf as <-. congruence. }
    rewrite Hin, Hf.
    destruct validInterviews as [|t rest]; [congruence|].
    cbn [List.length Nat.eqb].
    now rewrite Hcall, Hanalysis.
  - intros transcripts ->. rewrite filterValid_strings in Hf. now injection Hf as <-.
Qed.

Lemma POST_accepts_text_free_message_witness :
  POST (respondsWith [mkContentBlock "tool_use" EmptyString])
       (Resolved (requestOf [JString "We lose an hour a day"; JString " "])) [] =
    Some (Resolved (mkResponse (SuccessBody EmptyString 1) 200), [Call; LogAnalysis 0 EmptyString]).
Proof.
  apply (POST_accepts_text_free_message
           (respondsWith [mkContentBlock "tool_use" EmptyString])
           (requestOf [JString "We lose an hour a day"; JString " "])
           [JString "We lose an hour a day"; JString " "]
           ["We lose an hour a day"%string] [] [Call]
           (mkMessage (Some [mkContentBlock "tool_use" EmptyString]))).
  - reflexivity.
  - reflexivity.
  - discriminate.
  - reflexivity.
  - right. eexists _, _. split; [reflexivity | discriminate].
Defined.

(** *** Prompt assembly *)

(** C8, at an input where the code departs from it. The transcripts are
    given to [replace] as the replacement text, and [replace] reads dollar
    patterns in it: the transcript "We pay $$ for it" reaches the prompt
    as "We pay $ for it", and in "all of $& again" the pattern is replaced
    by the placeholder's own text. Neither prompt is the template with the
    serialized transcripts in the placeholder's place. *)
Theorem prompt_rewrites_dollar_patterns :
  prompt ["We pay $$ for it"%string] =
    substituted ANALYSIS_PROMPT "{interviews}"
                ("--- Interview 1 ---" ++ String LF EmptyString ++ "We pay $ for it") /\
  prompt ["We pay $$ for it"%string] <> promptAsSpecified ["We pay $$ for it"%string] /\
  prompt ["all of $& again"%string] =
    substituted ANALYSIS_PROMPT "{interviews}"
                ("--- Interview 1 ---" ++ String LF EmptyString ++ "all of {interviews} again") /\
  prompt ["all of $& again"%string] <> promptAsSpecified ["all of $& again"%string].
Proof.
  repeat split; try (vm_compute; reflexivity).
  - intros H. vm_compute in H. discriminate H.
  - intros H. vm_compute in H. discriminate H.
Qed.

(** The same, away from dollar signs: a transcript without one is
    substituted as it is. *)

Lemma includes_dollar_cons (c : ascii) (s : string) :
  includes "$" (String c s) = Ascii.eqb c "$" || includes "$" s.
Proof.
  cbn [includes]. f_equal. unfold startsWith. cbn [String.prefix].
  destruct (Ascii.ascii_dec "$" c) as [<-|Hne].
  - now destruct s.
  - symmetry. apply Ascii.eqb_neq. congruence.
Qed.

Lemma includes_dollar_app (a b : string) :
  includes "$" (a ++ b) = includes "$" a || includes "$" b.
Proof.
  induction a as [|c a IH].
  - cbn [append]. now destruct b.
  - cbn [append]. now rewrite !includes_dollar_cons, IH, orb_assoc.
Qed.

Lemma getSubstitution_plain (matched before after replacement : string) :
  includes "$" replacement = false ->
  getSubstitution matched before after replacement = replacement.
Proof.
  induction replacement as [|c r IH]; [reflexivity|].
  rewrite includes_dollar_cons. intros H. apply orb_false_iff in H as [Hc Hr].
  cbn [getSubstitution]. rewrite Hc. now rewrite IH.
Qed.

Lemma uint_no_dollar (d : Decimal.uint) :
  includes "$" (NilEmpty.string_of_uint d) = false.
Proof.
  induction d; cbn [NilEmpty.string_of_uint];
    [reflexivity | rewrite includes_dollar_cons, IHd; reflexivity ..].
Qed.

Lemma ofNat_no_dollar (n : nat) : includes "$" (ofNat n) = false.
Proof.
  unfold ofNat, NilZero.string_of_uint.
  destruct (Nat.to_uint n) eqn:E; [reflexivity | rewrite <- E; apply uint_no_dollar ..].
Qed.

Lemma interviewsText_no_dollar (validInterviews : list string) :
  Forall (fun t => includes "$" t = false) validInterviews ->
  includes "$" (interviewsText validInterviews) = false.
Proof.
  unfold interviewsText. generalize 0%nat as index.
  induction validInterviews as [|t rest IH]; intros index Hfree; [reflexivity|].
  inversion Hfree as [|? ? Ht Hrest]; subst.
  assert (Hblock : includes "$"
            ("--- Interview " ++ ofNat (index + 1) ++ " ---" ++ String LF EmptyString ++ t)
          = false).
  { rewrite !includes_dollar_app, ofNat_no_dollar, Ht. reflexivity. }
  cbn [interviewBlocks join].
  destruct (interviewBlocks (S index) rest) as [|b bs] eqn:E; [exact Hblock|].
  rewrite includes_dollar_app, Hblock, includes_dollar_app, <- E, (IH (S index) Hrest).
  reflexivity.
Qed.

(** The template holds the placeholder once. *)
Lemma template_has_one_placeholder :
  exists before after,
    ANALYSIS_PROMPT = (before ++ "{interviews}" ++ after)%string /\
    includes "{interviews}" before = false /\
    includes "{interviews}" after = false.
Proof.
  destruct (findFirst "{interviews}" ANALYSIS_PROMPT) as [[before after]|] eqn:E;
    [|vm_compute in E; discriminate E].
  exists before, after. vm_compute in E. injection E as <- <-.
  repeat split; vm_compute; reflexivity.
Qed.

Lemma join_concat (sep : string) (pieces : list string) :
  join sep pieces = String.concat sep pieces.
Proof.
  induction pieces as [|p ps IH]; [reflexivity|].
  destruct ps as [|q ps]; [reflexivity|].
  change (join sep (p :: q :: ps)) with (p ++ sep ++ join sep (q :: ps))%string.
  now rewrite IH.
Qed.

Lemma interviewBlocks_numbered (index : nat) (transcripts : list string) :
  interviewBlocks index transcripts =
  map (fun nt => blockOf (fst nt) (snd nt))
      (combine (seq (index + 1) (List.length transcripts)) transcripts).
Proof.
  revert index. induction transcripts as [|t rest IH]; intros index; [reflexivity|].
  cbn [interviewBlocks List.length seq combine map fst snd].
  now rewrite (IH (S index)).
Qed.

Lemma interviewsText_serialized (transcripts : list string) :
  interviewsText transcripts = serializedTranscripts transcripts.
Proof.
  unfold interviewsText, serializedTranscripts, numbered.
  now rewrite join_concat, interviewBlocks_numbered.
Qed.

(** The serialization the handler builds is the one the specification
    words, for every list of transcripts: the blocks [--- Interview n ---],
    numbered from 1 in the order of the list, each followed by a line feed
    and its transcript, and joined by one blank line. For transcripts
    without a dollar sign the prompt is the template with that text in the
    place of [{interviews}], the rest of the template as it was; for two
    transcripts the text is spelled out. *)
Theorem prompt_substitutes_plain_transcripts (validInterviews : list string) :
  Forall (fun t => includes "$" t = false) validInterviews ->
  interviewsText validInterviews = serializedTranscripts validInterviews /\
  prompt validInterviews =
    substituted ANALYSIS_PROMPT "{interviews}" (serializedTranscripts validInterviews) /\
  (exists before after,
     ANALYSIS_PROMPT = (before ++ "{interviews}" ++ after)%string /\
     includes "{interviews}" before = false /\
     includes "{interviews}" after = false /\
     prompt validInterviews =
       (before ++ serializedTranscripts validInterviews ++ after)%string) /\
  (forall a b, validInterviews = [a; b] ->
     interviewsText validInterviews =
       ("--- Interview 1 ---" ++ String LF EmptyString ++ a ++
        String LF (String LF EmptyString) ++
        "--- Interview 2 ---" ++ String LF EmptyString ++ b)%string).
Proof.
  intros Hfree.
  assert (Hprompt : prompt validInterviews =
                    substituted ANALYSIS_PROMPT "{interviews}"
                                (serializedTranscripts validInterviews)).
  { rewrite <- interviewsText_serialized. unfold prompt, replace, substituted.
    destruct (findFirst "{interviews}" ANALYSIS_PROMPT) as [[before after]|]; [|reflexivity].
    now rewrite (getSubstitution_plain _ _ _ _ (interviewsText_no_dollar _ Hfree)). }
  split; [apply interviewsText_serialized|].
  split; [exact Hprompt|]. split.
  - rewrite Hprompt. unfold substituted.
    destruct (findFirst "{interviews}" ANALYSIS_PROMPT) as [[before after]|] eqn:E;
      [|vm_compute in E; discriminate E].
    exists before, after. vm_compute in E. injection E as <- <-.
    split; [vm_compute; reflexivity|].
    split; [vm_compute; reflexivity|].
    split; [vm_compute; reflexivity|reflexivity].
  - intros a b ->. reflexivity.
Qed.

Lemma prompt_substitutes_plain_transcripts_witness :
  prompt ["first talk"%string; "second talk"%string] =
  substituted ANALYSIS_PROMPT "{interviews}"
              (serializedTranscripts ["first talk"%string; "second talk"%string]).
Proof.
  apply (proj1 (proj2 (prompt_substitutes_plain_transcripts
                         ["first talk"%string; "second talk"%string]
                         ltac:(repeat constructor)))).
Defined.

End RouteFacts.


(* ================================================================= *)
(** ** Runs of [retryWithBackoff] *)

Module RetryRuns.
Import JsString JsStringFacts Retry RetrySpec RunSpec RetryFacts.

Open Scope Z_scope.

Lemma callsMade_app (a b : list Event) : callsMade (a ++ b) = (callsMade a + callsMade b)%nat.
Proof.
  induction a as [|e a IH]; [reflexivity|].
  destruct e; simpl; now rewrite ?IH.
Qed.

Lemma callsMade_retryHistory (maxRetries baseDelay : Z) (k : nat) :
  callsMade (retryHistory maxRetries baseDelay k) = k.
Proof.
  induction k as [|k IH]; [reflexivity|].
  cbn [retryHistory]. rewrite callsMade_app, IH. cbn. lia.
Qed.

Lemma totalSleep_app (a b : list Event) : totalSleep (a ++ b) = totalSleep a + totalSleep b.
Proof.
  unfold totalSleep. rewrite sleepsOf_app.
  induction (sleepsOf a) as [|x xs IH]; cbn; [reflexivity | rewrite IH; lia].
Qed.

(** The delays of [k] retries add up to [baseDelay * (2^k - 1)]. *)
Lemma totalSleep_retryHistory (maxRetries baseDelay : Z) (k : nat) :
  totalSleep (retryHistory maxRetries baseDelay k) = baseDelay * (2 ^ Z.of_nat k - 1).
Proof.
  induction k as [|k IH]; [cbn; lia|].
  cbn [retryHistory]. rewrite totalSleep_app, IH.
  replace (Z.of_nat (S k)) with (Z.of_nat k + 1) by lia.
  rewrite Z.pow_add_r by lia. unfold totalSleep. cbn. lia.
Qed.

(** The loop, from any attempt on: it stops at some attempt [k] below the
    budget, every attempt before [k] was rejected with a retryable error,
    and the loop is left with what attempt [k] gave. *)
Lemma attempts_run {T : Type} (fn : list Event -> Outcome T)
      (maxRetries baseDelay : Z) (h : list Event) (fuel a : nat) :
  Z.of_nat a < maxRetries ->
  (Z.to_nat (maxRetries - Z.of_nat a) < fuel)%nat ->
  exists k,
    (a <= k)%nat /\ Z.of_nat k < maxRetries /\
    (forall j, (a <= j < k)%nat ->
       exists error, fn (h ++ retryHistory maxRetries baseDelay j) = Rejected error /\
                     isOverloaded error || isRateLimit error = true) /\
    attempts fn maxRetries baseDelay fuel (Z.of_nat a)
             (h ++ retryHistory maxRetries baseDelay a) =
      Some (exitOf (fn (h ++ retryHistory maxRetries baseDelay k)),
            h ++ retryHistory maxRetries baseDelay k ++ [Call]) /\
    (forall error, fn (h ++ retryHistory maxRetries baseDelay k) = Rejected error ->
       isOverloaded error || isRateLimit error = false \/ Z.of_nat k = maxRetries - 1).
Proof.
  revert a. induction fuel as [|fuel IH]; intros a Ha Hfuel; [lia|].
  destruct (fn (h ++ retryHistory maxRetries baseDelay a)) as [v|error] eqn:Hfn.
  - exists a. split; [lia|]. split; [lia|]. split; [intros j Hj; lia|]. split.
    + rewrite (attempts_resolved fn maxRetries baseDelay fuel _ _ v Ha Hfn).
      now rewrite Hfn, app_assoc.
    + intros error. rewrite Hfn. discriminate.
  - destruct ((isOverloaded error || isRateLimit error) && (Z.of_nat a <? maxRetries - 1))
      eqn:Hcond.
    + apply andb_true_iff in Hcond as [Hre Hlt]. apply Z.ltb_lt in Hlt.
      destruct (IH (S a)) as (k & Hk1 & Hk2 & Hbefore & Hrun & Hlast); [lia|lia|].
      exists k. split; [lia|]. split; [lia|]. split; [|split].
      * intros j Hj. destruct (Nat.eq_dec j a) as [->|Hne].
        -- now exists error.
        -- apply Hbefore. lia.
      * rewrite (attempts_retry fn maxRetries baseDelay fuel _ _ error Hlt Hfn Hre).
        rewrite <- app_assoc. cbn [retryHistory] in Hrun.
        replace (Z.of_nat (S a)) with (Z.of_nat a + 1) in Hrun by lia.
        exact Hrun.
      * exact Hlast.
    + exists a. split; [lia|]. split; [lia|]. split; [intros j Hj; lia|]. split.
      * rewrite (attempts_threw fn maxRetries baseDelay fuel _ _ error Ha Hfn Hcond).
        now rewrite Hfn, app_assoc.
      * intros error'. rewrite Hfn. intros [= <-].
        apply andb_false_iff in Hcond as [Hre|Hlt]; [now left|].
        right. apply Z.ltb_ge in Hlt. lia.
Qed.

(** The same for the function: the result is what the last attempt gave. *)
Lemma retry_run {T : Type} (fn : list Event -> Outcome T)
      (maxRetries baseDelay : Z) (h : list Event) :
  1 <= maxRetries ->
  exists k,
    Z.of_nat k < maxRetries /\
    (forall j, (j < k)%nat ->
       exists error, fn (h ++ retryHistory maxRetries baseDelay j) = Rejected error /\
                     isOverloaded error || isRateLimit error = true) /\
    retryWithBackoff fn maxRetries baseDelay h =
      Some (fn (h ++ retryHistory maxRetries baseDelay k),
            h ++ retryHistory maxRetries baseDelay k ++ [Call]) /\
    (forall error, fn (h ++ retryHistory maxRetries baseDelay k) = Rejected error ->
       isOverloaded error || isRateLimit error = false \/ Z.of_nat k = maxRetries - 1).
Proof.
  intros Hmax.
  destruct (attempts_run fn maxRetries baseDelay h (S (Z.to_nat maxRetries)) 0)
    as (k & _ & Hk & Hbefore & Hrun & Hlast); [lia|lia|].
  exists k. repeat split; [exact Hk | | | exact Hlast].
  - intros j Hj. apply Hbefore. lia.
  - unfold retryWithBackoff. cbn [retryHistory Z.of_nat] in Hrun.
    rewrite app_nil_r in Hrun. rewrite Hrun.
    now destruct (fn (h ++ retryHistory maxRetries baseDelay k)).
Qed.

(** X3. With a budget of at least one attempt, every run of
    [retryWithBackoff] has one shape: some number [k] of attempts, fewer
    than the budget, were rejected with a retryable error and each was
    followed by its sleep of [baseDelay * 2^j]; attempt [k] ended the run,
    and what it gave, value or error, is the result. The run made [k + 1]
    calls. An error ends the run only when it is not retryable or the
    budget is used up. *)
Theorem retry_result_is_last_attempt {T : Type} (fn : list Event -> Outcome T)
        (maxRetries baseDelay : Z) (h : list Event) :
  1 <= maxRetries ->
  exists k,
    Z.of_nat k < maxRetries /\
    (forall j, (j < k)%nat ->
       exists error, fn (h ++ retryHistory maxRetries baseDelay j) = Rejected error /\
                     isOverloaded error || isRateLimit error = true) /\
    retryWithBackoff fn maxRetries baseDelay h =
      Some (fn (h ++ retryHistory maxRetries baseDelay k),
            h ++ retryHistory maxRetries baseDelay k ++ [Call]) /\
    (forall error, fn (h ++ retryHistory maxRetries baseDelay k) = Rejected error ->
       isOverloaded error || isRateLimit error = false \/ Z.of_nat k = maxRetries - 1) /\
    callsMade (h ++ retryHistory maxRetries baseDelay k ++ [Call]) = (callsMade h + k + 1)%nat /\
    sleepsOf (h ++ retryHistory maxRetries baseDelay k ++ [Call]) =
      sleepsOf h ++ map (fun j => baseDelay * 2 ^ Z.of_nat j) (seq 0 k).
Proof.
  intros Hmax.
  destruct (retry_run fn maxRetries baseDelay h Hmax) as (k & Hk & Hbefore & Hrun & Hlast).
  exists k. repeat (split; [assumption|]). split.
  - rewrite !callsMade_app, callsMade_retryHistory. cbn. lia.
  - rewrite !sleepsOf_app, sleepsOf_retryHistory. cbn [sleepsOf]. now rewrite app_nil_r.
Qed.

Lemma retry_result_is_last_attempt_witness :
  exists k,
    Z.of_nat k < 3 /\
    (forall j, (j < k)%nat ->
       exists error,
         failsThenResolves 1 overloaded529 "done"%string ([] ++ retryHistory 3 1500 j) =
           Rejected error /\
         isOverloaded error || isRateLimit error = true) /\
    retryWithBackoff (failsThenResolves 1 overloaded529 "done"%string) 3 1500 [] =
      Some (failsThenResolves 1 overloaded529 "done"%string ([] ++ retryHistory 3 1500 k),
            [] ++ retryHistory 3 1500 k ++ [Call]) /\
    (forall error,
       failsThenResolves 1 overloaded529 "done"%string ([] ++ retryHistory 3 1500 k) =
         Rejected error ->
       isOverloaded error || isRateLimit error = false \/ Z.of_nat k = 3 - 1) /\
    callsMade ([] ++ retryHistory 3 1500 k ++ [Call]) = (callsMade [] + k + 1)%nat /\
    sleepsOf ([] ++ retryHistory 3 1500 k ++ [Call]) =
      sleepsOf [] ++ map (fun j => 1500 * 2 ^ Z.of_nat j) (seq 0 k).
Proof.
  apply (retry_result_is_last_attempt (failsThenResolves 1 overloaded529 "done"%string)
                                      3 1500 []).
  lia.
Defined.

(** X4. When every attempt is rejected with a retryable error, the run
    uses the whole budget: it makes exactly [maxRetries] calls, sleeps
    [baseDelay * 2^j] after the attempts [j = 0 .. maxRetries - 2], does not
    sleep after the last one, and is rejected with the error of the last
    attempt, not with a wrapper. *)
Theorem retry_exhausts_budget {T : Type} (fn : list Event -> Outcome T)
        (maxRetries baseDelay : Z) (h : list Event) :
  1 <= maxRetries ->
  (forall j, Z.of_nat j < maxRetries ->
     exists error, fn (h ++ retryHistory maxRetries baseDelay j) = Rejected error /\
                   isOverloaded error || isRateLimit error = true) ->
  exists error,
    fn (h ++ retryHistory maxRetries baseDelay (Z.to_nat (maxRetries - 1))) = Rejected error /\
    retryWithBackoff fn maxRetries baseDelay h =
      Some (Rejected error,
            h ++ retryHistory maxRetries baseDelay (Z.to_nat (maxRetries - 1)) ++ [Call]) /\
    callsMade (h ++ retryHistory maxRetries baseDelay (Z.to_nat (maxRetries - 1)) ++ [Call]) =
      (callsMade h + Z.to_nat maxRetries)%nat /\
    sleepsOf (h ++ retryHistory maxRetries baseDelay (Z.to_nat (maxRetries - 1)) ++ [Call]) =
      sleepsOf h ++ map (fun j => baseDelay * 2 ^ Z.of_nat j)
                        (seq 0 (Z.to_nat (maxRetries - 1))).
Proof.
  intros Hmax Hfail.
  destruct (retry_run fn maxRetries baseDelay h Hmax) as (k & Hk & _ & Hrun & Hlast).
  destruct (Hfail k Hk) as (error & Hfn & Hre).
  assert (Hk' : k = Z.to_nat (maxRetries - 1)).
  { destruct (Hlast error Hfn) as [H|H]; [congruence | lia]. }
  subst k. exists error. split; [exact Hfn|]. split; [now rewrite Hrun, Hfn|]. split.
  - rewrite !callsMade_app, callsMade_retryHistory. cbn. lia.
  - rewrite !sleepsOf_app, sleepsOf_retryHistory. cbn [sleepsOf]. now rewrite app_nil_r.
Qed.

Lemma retry_exhausts_budget_witness :
  exists error,
    failsThenResolves 5 overloaded529 "done"%string
                      ([] ++ retryHistory 3 1500 (Z.to_nat (3 - 1))) = Rejected error /\
    retryWithBackoff (failsThenResolves 5 overloaded529 "done"%string) 3 1500 [] =
      Some (Rejected error, [] ++ retryHistory 3 1500 (Z.to_nat (3 - 1)) ++ [Call]) /\
    callsMade ([] ++ retryHistory 3 1500 (Z.to_nat (3 - 1)) ++ [Call]) =
      (callsMade [] + Z.to_nat 3)%nat /\
    sleepsOf ([] ++ retryHistory 3 1500 (Z.to_nat (3 - 1)) ++ [Call]) =
      sleepsOf [] ++ map (fun j => 1500 * 2 ^ Z.of_nat j) (seq 0 (Z.to_nat (3 - 1))).
Proof.
  apply (retry_exhausts_budget (failsThenResolves 5 overloaded529 "done"%string) 3 1500 []).
  - lia.
  - intros j Hj. exists overloaded529.
    destruct j as [|[|[|j]]]; [split; reflexivity .. | lia].
Defined.

(** X5. Whatever the operation does, a run never makes more calls than the
    budget allows, and with a base delay that is not negative it never
    sleeps longer in total than [baseDelay * (2^(maxRetries - 1) - 1)]
    milliseconds; with a budget below one it makes no call at all. *)
Theorem retry_is_bounded {T : Type} (fn : list Event -> Outcome T)
        (maxRetries baseDelay : Z) (h h' : list Event) (r : Outcome T) :
  0 <= baseDelay ->
  retryWithBackoff fn maxRetries baseDelay h = Some (r, h') ->
  (callsMade h' <= callsMade h + Z.to_nat maxRetries)%nat /\
  totalSleep h <= totalSleep h' <=
    totalSleep h + baseDelay * (2 ^ Z.max 0 (maxRetries - 1) - 1) /\
  (maxRetries <= 0 -> h' = h).
Proof.
  intros Hbase Hrun.
  destruct (Z_lt_le_dec maxRetries 1) as [Hsmall|Hmax].
  - assert (H : retryWithBackoff fn maxRetries baseDelay h =
                Some (Rejected (newError "Max retries exceeded"), h)).
    { unfold retryWithBackoff. cbn [attempts].
      assert (H0 : (0 <? maxRetries) = false) by (apply Z.ltb_ge; lia).
      now rewrite H0. }
    rewrite H in Hrun. injection Hrun as _ <-.
    replace (Z.max 0 (maxRetries - 1)) with 0 by lia.
    split; [lia|]. split; [cbn; lia | reflexivity].
  - destruct (retry_run fn maxRetries baseDelay h Hmax) as (k & Hk & _ & Hk_run & _).
    rewrite Hk_run in Hrun. injection Hrun as _ <-.
    split; [|split; [|lia]].
    + rewrite !callsMade_app, callsMade_retryHistory. cbn. lia.
    + rewrite !totalSleep_app, totalSleep_retryHistory.
      replace (totalSleep [Call]) with 0 by reflexivity.
      replace (Z.max 0 (maxRetries - 1)) with (maxRetries - 1) by lia.
      assert (H1 : 1 <= 2 ^ Z.of_nat k) by (apply Z.pow_le_mono_r with (b := 0); lia).
      assert (H2 : 2 ^ Z.of_nat k <= 2 ^ (maxRetries - 1)) by (apply Z.pow_le_mono_r; lia).
      nia.
Qed.

Lemma retry_is_bounded_witness :
  (callsMade [Call; LogRetry 1500 1 3; Sleep 1500; Call; LogRetry 3000 2 3; Sleep 3000; Call]
   <= callsMade [] + Z.to_nat 3)%nat /\
  totalSleep [] <=
    totalSleep [Call; LogRetry 1500 1 3; Sleep 1500; Call; LogRetry 3000 2 3; Sleep 3000; Call]
    <= totalSleep [] + 1500 * (2 ^ Z.max 0 (3 - 1) - 1) /\
  (3 <= 0 ->
   [Call; LogRetry 1500 1 3; Sleep 1500; Call; LogRetry 3000 2 3; Sleep 3000; Call] = []).
Proof.
  apply (retry_is_bounded (failsThenResolves 5 overloaded529 "done"%string) 3 1500 []
                          [Call; LogRetry 1500 1 3; Sleep 1500; Call; LogRetry 3000 2 3;
                           Sleep 3000; Call]
                          (Rejected overloaded529)).
  - lia.
  - reflexivity.
Defined.

End RetryRuns.


(* ================================================================= *)
(** ** The answers of [POST] *)

Module RouteResponses.
Import JsString JsStringFacts Retry Route RetrySpec RouteSpec RunSpec RetryFacts RetryRuns RouteFacts.

Open Scope Z_scope.

(** The whole of [filterValid]: it throws when some entry is neither falsy
    nor a string, and keeps the strings that are not blank otherwise. *)
Lemma filterValid_cases (items : list JsValue) :
  filterValid items =
  if existsb truthyNonString items
  then Rejected (typeError "i.trim is not a function")
  else Resolved (keptStrings items).
Proof.
  induction items as [|i rest IH]; [reflexivity|].
  cbn [filterValid existsb keptStrings]. rewrite IH.
  destruct i as [| |b|n|s|l|l]; cbn [truthyNonString falsy negb orb].
  - reflexivity.
  - reflexivity.
  - now destruct b.
  - now destruct (n =? 0).
  - destruct (existsb truthyNonString rest); [reflexivity|].
    now destruct (truthy s && (0 <? String.length (trim s))%nat).
  - reflexivity.
  - reflexivity.
Qed.

(** The [catch] block: it throws on an [Error] instance without a message,
    and answers by its three tests otherwise. *)
Lemma errorResponse_cases (error : JsError) :
  errorResponse error =
  if unreadableError error then
    Rejected (typeError "Cannot read properties of undefined (reading 'includes')")
  else
    Resolved
      (if isApiKeyError error then
         mkResponse (ErrorBody "API key not configured. Please add ANTHROPIC_API_KEY to your environment variables.") 500
       else if strictEqZ (status error) 529 || strictEqString (error_type error) "overloaded_error" then
         mkResponse (ErrorBody "The Anthropic API is currently overloaded. Please wait a moment and try again.") 503
       else mkResponse (ErrorBody "Failed to analyze interviews. Please try again.") 500).
Proof.
  unfold errorResponse, unreadableError, isApiKeyError, messageIncludes, overloadedOrGeneral.
  destruct (instanceofError error); cbn [andb]; [|reflexivity].
  destruct (message error) as [m|]; [|reflexivity].
  now destruct (includes "API key" m).
Qed.

Lemma errorResponse_answers (error : JsError) (r : Response) :
  errorResponse error = Resolved r ->
  answersWith r /\ http_status r <> 200 /\ http_status r <> 400.
Proof.
  rewrite errorResponse_cases. unfold answersWith.
  destruct (unreadableError error); [discriminate|]. intros [= <-].
  destruct (isApiKeyError error);
    [|destruct (strictEqZ (status error) 529 || strictEqString (error_type error) "overloaded_error")];
    cbn; (split; [right; split; [tauto | eexists; reflexivity] | split; discriminate]).
Qed.

Lemma errorResponse_throws (error : JsError) (thrown : JsError) :
  errorResponse error = Rejected thrown ->
  unreadableError error = true /\
  thrown = typeError "Cannot read properties of undefined (reading 'includes')".
Proof.
  rewrite errorResponse_cases.
  destruct (unreadableError error); [|discriminate]. intros [= <-]. now split.
Qed.

Lemma callsMade_snoc_log (h : list Event) (e : Event) :
  callsMade [e] = 0%nat -> callsMade (h ++ [e]) = callsMade h.
Proof.
  intros H. rewrite callsMade_app, H. lia.
Qed.

Lemma totalSleep_snoc_log (h : list Event) (e : Event) :
  sleepsOf [e] = [] -> totalSleep (h ++ [e]) = totalSleep h.
Proof.
  intros H. rewrite totalSleep_app. unfold totalSleep at 2. rewrite H. cbn. lia.
Qed.

(** What passes the first test is a list that is not empty. *)
Lemma invalidInput_false (interviews : JsValue) :
  invalidInput interviews = false -> exists i rest, interviews = JArray (i :: rest).
Proof.
  unfold invalidInput.
  destruct interviews as [| |b|n|s|items|fields]; cbn [falsy];
    rewrite ?orb_true_r; try discriminate.
  destruct items as [|i rest]; [discriminate | now exists i, rest].
Qed.

Section Handler.

Variable create : string -> list Event -> Outcome Message.

(** The handler once the request has passed validation. *)
Lemma POST_remote (json : JsValue) (items : list JsValue) (validInterviews : list string)
      (h h1 : list Event) (o : Outcome Message) :
  destructureInterviews json = Resolved (JArray items) ->
  filterValid items = Resolved validInterviews ->
  validInterviews <> [] ->
  retryWithBackoff (create (prompt validInterviews)) 3 1500 h = Some (o, h1) ->
  POST create (Resolved json) h =
  Some (match o with
        | Resolved message_ =>
            (Resolved (mkResponse (SuccessBody (analysisOf message_) (List.length validInterviews)) 200),
             h1 ++ [LogAnalysis (String.length (analysisOf message_))
                                (substring 0 300 (analysisOf message_))])
        | Rejected error => (errorResponse error, h1 ++ [LogError error])
        end).
Proof.
  intros Hd Hf Hne Hrun. unfold POST, POST_try. rewrite Hd.
  assert (Hin : invalidInput (JArray items) = false).
  { destruct items as [|i rest]; [|reflexivity].
    cbn in Hf. injection Hf as <-. congruence. }
  rewrite Hin, Hf.
  destruct validInterviews as [|t rest]; [congruence|].
  cbn [List.length Nat.eqb]. rewrite Hrun. now destruct o.
Qed.

(** Every way through the handler. An error caught before the remote call
    is the one reading the body failed with, or one the engine threw, which
    has a message. *)
Lemma POST_cases (request_json : Outcome JsValue) (h : list Event) :
  (exists msg,
     POST create request_json h = Some (Resolved (mkResponse (ErrorBody msg) 400), h)) \/
  (exists error,
     POST create request_json h = Some (errorResponse error, h ++ [LogError error]) /\
     (request_json = Rejected error \/ unreadableError error = false)) \/
  (exists json items validInterviews o h1,
     request_json = Resolved json /\
     destructureInterviews json = Resolved (JArray items) /\
     filterValid items = Resolved validInterviews /\
     validInterviews <> [] /\
     retryWithBackoff (create (prompt validInterviews)) 3 1500 h = Some (o, h1)).
Proof.
  destruct request_json as [json|error].
  2:{ right; left. exists error. split; [reflexivity | now left]. }
  destruct (destructureInterviews json) as [interviews|error] eqn:Hd.
  2:{ right; left. exists error. split; [unfold POST, POST_try; now rewrite Hd|].
      right. destruct json; cbn in Hd; try discriminate Hd; now injection Hd as <-. }
  destruct (invalidInput interviews) eqn:Hin.
  { left. eexists. unfold POST, POST_try. now rewrite Hd, Hin. }
  destruct (invalidInput_false _ Hin) as (i0 & rest0 & ->).
  set (items := i0 :: rest0) in *.
  destruct (filterValid items) as [validInterviews|error] eqn:Hf.
  2:{ right; left. exists error. split; [unfold POST, POST_try; now rewrite Hd, Hin, Hf|].
      right. rewrite filterValid_cases in Hf.
      destruct (existsb truthyNonString items); [now injection Hf as <- | discriminate Hf]. }
  destruct validInterviews as [|t rest].
  { left. eexists. unfold POST, POST_try. now rewrite Hd, Hin, Hf. }
  right; right.
  destruct (retry_run (create (prompt (t :: rest))) 3 1500 h) as (k & _ & _ & Hrun & _); [lia|].
  exists json, items, (t :: rest). do 2 eexists.
  repeat split; try eassumption. discriminate.
Qed.

End Handler.

Lemma retryHistory_small (k : nat) :
  Z.of_nat k < 3 ->
  totalSleep (retryHistory 3 1500 k) <= 4500 /\ (k <= 2)%nat.
Proof.
  intros Hk. destruct k as [|[|[|k]]]; cbn; lia.
Qed.

(** X6. [POST] always comes to an end, whatever the request and whatever
    the remote call does, after at most three remote calls and at most 4500
    milliseconds of sleep. It answers with 200 and a success body, or with
    400, 500 or 503 and an error message; an answer 200 comes only after a
    remote call, and an answer 400 only without one. The one case without an
    answer: the error caught is an [Error] instance without a message, which
    reading the body or the remote call was rejected with; then the [catch]
    block, having logged the error, throws a [TypeError] in its turn. *)
Theorem POST_answers_or_rethrows (create : string -> list Event -> Outcome Message)
        (request_json : Outcome JsValue) (h : list Event) :
  exists o h',
    POST create request_json h = Some (o, h') /\
    (callsMade h' <= callsMade h + 3)%nat /\
    totalSleep h <= totalSleep h' <= totalSleep h + 4500 /\
    (forall r, o = Resolved r ->
       answersWith r /\
       (http_status r = 200 -> (callsMade h < callsMade h')%nat) /\
       (http_status r = 400 -> h' = h)) /\
    (forall thrown, o = Rejected thrown ->
       thrown = (typeError "Cannot read properties of undefined (reading 'includes')") /\
       exists error before,
         h' = before ++ [LogError error] /\
         unreadableError error = true /\
         (request_json = Rejected error \/
          exists prompt_ h0, create prompt_ h0 = Rejected error)) /\
    ((forall error, unreadableError error = true ->
        request_json <> Rejected error /\
        forall prompt_ h0, create prompt_ h0 <> Rejected error) ->
     exists r, o = Resolved r).
Proof.
  assert (Hlast : forall (o : Outcome Response),
            (forall thrown, o = Rejected thrown ->
               thrown = (typeError "Cannot read properties of undefined (reading 'includes')") /\
               exists error (before : list Event),
                 unreadableError error = true /\
                 (request_json = Rejected error \/
                  exists prompt_ h0, create prompt_ h0 = Rejected error)) ->
            (forall error, unreadableError error = true ->
               request_json <> Rejected error /\
               forall prompt_ h0, create prompt_ h0 <> Rejected error) ->
            exists r, o = Resolved r).
  { intros [r|thrown] Hthrown Hnone; [now exists r|].
    destruct (Hthrown thrown eq_refl) as (_ & error & _ & Hun & Hsrc).
    destruct (Hnone error Hun) as [H1 H2].
    destruct Hsrc as [Hsrc | (p0 & h0 & Hsrc)]; [now destruct H1 | now destruct (H2 p0 h0)]. }
  destruct (POST_cases create request_json h)
    as [[msg H] | [(error & H & Hsrc) | (json & items & valid & o & h1 & -> & Hd & Hf & Hne & Hrun)]].
  - do 2 eexists. split; [exact H|].
    split; [lia|]. split; [lia|]. split; [|split].
    + intros r [= <-]. split; [right; split; [now left | now exists msg]|].
      split; [discriminate | reflexivity].
    + discriminate.
    + intros _. eexists. reflexivity.
  - do 2 eexists. split; [exact H|].
    rewrite callsMade_snoc_log, totalSleep_snoc_log by reflexivity.
    split; [lia|]. split; [lia|].
    assert (Hthrown : forall thrown, errorResponse error = Rejected thrown ->
              thrown = (typeError "Cannot read properties of undefined (reading 'includes')") /\
              exists error0 before,
                h ++ [LogError error] = before ++ [LogError error0] /\
                unreadableError error0 = true /\
                (request_json = Rejected error0 \/
                 exists prompt_ h0, create prompt_ h0 = Rejected error0)).
    { intros thrown E. destruct (errorResponse_throws _ _ E) as [Hun ->].
      split; [reflexivity|]. exists error, h. split; [reflexivity|]. split; [exact Hun|].
      destruct Hsrc as [Hsrc|Hsrc]; [now left | congruence]. }
    split; [|split; [exact Hthrown|]].
    + intros r E. destruct (errorResponse_answers _ _ E) as (Ha & H200 & H400).
      split; [exact Ha|]. split; intros E'; congruence.
    + apply Hlast. intros thrown E. destruct (Hthrown thrown E) as (-> & e0 & b0 & _ & Hun & Hs).
      split; [reflexivity|]. now exists e0, b0.
  - destruct (retry_run (create (prompt valid)) 3 1500 h) as (k & Hk & _ & Hrun' & _); [lia|].
    rewrite Hrun' in Hrun. injection Hrun as <- <-.
    destruct (retryHistory_small k Hk) as [Hsleep Hk2].
    assert (Hsl : 0 <= totalSleep (retryHistory 3 1500 k)).
    { rewrite totalSleep_retryHistory.
      assert (1 <= 2 ^ Z.of_nat k) by (apply Z.pow_le_mono_r with (b := 0); lia). lia. }
    assert (HP := POST_remote create _ _ _ _ _ _ Hd Hf Hne Hrun').
    destruct (create (prompt valid) (h ++ retryHistory 3 1500 k)) as [m|error] eqn:Hcreate;
      do 2 eexists; (split; [exact HP|]);
      rewrite callsMade_snoc_log, totalSleep_snoc_log by reflexivity;
      rewrite !callsMade_app, !totalSleep_app, callsMade_retryHistory;
      replace (totalSleep [Call]) with 0 by reflexivity; cbn [callsMade];
      (split; [lia|]); (split; [lia|]).
    + split; [|split].
      * intros r [= <-]. split; [left; split; [reflexivity | now do 2 eexists]|].
        split; [intros _; lia | discriminate].
      * discriminate.
      * intros _. eexists. reflexivity.
    + assert (Hthrown : forall thrown, errorResponse error = Rejected thrown ->
                thrown = (typeError "Cannot read properties of undefined (reading 'includes')") /\
                exists error0 before,
                  (h ++ retryHistory 3 1500 k ++ [Call]) ++ [LogError error] =
                    before ++ [LogError error0] /\
                  unreadableError error0 = true /\
                  (Resolved json = Rejected error0 \/
                   exists prompt_ h0, create prompt_ h0 = Rejected error0)).
      { intros thrown E. destruct (errorResponse_throws _ _ E) as [Hun ->].
        split; [reflexivity|]. exists error. eexists. split; [reflexivity|].
        split; [exact Hun|]. right. do 2 eexists. exact Hcreate. }
      split; [|split; [exact Hthrown|]].
      * intros r E. destruct (errorResponse_answers _ _ E) as (Ha & H200 & H400).
        split; [exact Ha|]. split; intros E'; congruence.
      * apply Hlast. intros thrown E.
        destruct (Hthrown thrown E) as (-> & e0 & b0 & _ & Hun & Hs).
        split; [reflexivity|]. now exists e0, b0.
Qed.

(** X7. When the request is valid and the remote call is rejected with the
    same retryable error every time, [POST] makes three calls, sleeps 1500
    and then 3000 milliseconds, logs the error and hands it to the [catch]
    block. Unless the error is an [Error] instance without a message, the
    answer is 503 exactly when the error is no API key error and carries the
    status 529 or the type tag [overloaded_error], and 500 otherwise, so
    also for a rate-limit error. For an [Error] instance without a message,
    such as one that carries the status 529 only, there is no answer: the
    [catch] block throws a [TypeError]. *)
Theorem POST_reports_exhausted_retries
        (create : string -> list Event -> Outcome Message)
        (json : JsValue) (items : list JsValue) (validInterviews : list string)
        (h : list Event) (error : JsError) :
  destructureInterviews json = Resolved (JArray items) ->
  filterValid items = Resolved validInterviews ->
  validInterviews <> [] ->
  (forall h', create (prompt validInterviews) h' = Rejected error) ->
  isOverloaded error || isRateLimit error = true ->
  let h' := (h ++ [Call; LogRetry 1500 1 3; Sleep 1500; Call; LogRetry 3000 2 3; Sleep 3000; Call])
              ++ [LogError error] in
  (unreadableError error = false ->
   exists r,
     POST create (Resolved json) h = Some (Resolved r, h') /\
     (exists msg, body r = ErrorBody msg) /\
     (http_status r = 503 <->
      isApiKeyError error = false /\
      (status error = Some 529 \/ error_type error = Some "overloaded_error")) /\
     (http_status r <> 503 -> http_status r = 500)) /\
  (unreadableError error = true ->
   POST create (Resolved json) h = Some (Rejected (typeError "Cannot read properties of undefined (reading 'includes')"), h')).
Proof.
  intros Hd Hf Hne Hfail Hre h'.
  assert (HP : POST create (Resolved json) h = Some (errorResponse error, h')).
  { rewrite (POST_remote create json items validInterviews h
               (h ++ [Call; LogRetry 1500 1 3; Sleep 1500; Call; LogRetry 3000 2 3;
                      Sleep 3000; Call])
               (Rejected error) Hd Hf Hne); [reflexivity|].
    unfold retryWithBackoff. change (S (Z.to_nat 3)) with 4%nat.
    rewrite (attempts_retry _ 3 1500 3 0 _ error); [|lia|apply Hfail|exact Hre].
    rewrite (attempts_retry _ 3 1500 2 (0 + 1) _ error); [|lia|apply Hfail|exact Hre].
    rewrite (attempts_threw _ 3 1500 1 (0 + 1 + 1) _ error);
      [|lia|apply Hfail|now rewrite Hre].
    rewrite <- !app_assoc. reflexivity. }
  rewrite HP, errorResponse_cases. split; intros Hun; rewrite Hun; [|reflexivity].
  eexists. split; [reflexivity|]. split; [|split].
  - destruct (isApiKeyError error);
      [|destruct (strictEqZ (status error) 529 ||
                  strictEqString (error_type error) "overloaded_error")];
      eexists; reflexivity.
  - destruct (isApiKeyError error).
    + cbn. split; [discriminate | intros [E _]; discriminate E].
    + destruct (strictEqZ (status error) 529 ||
                strictEqString (error_type error) "overloaded_error") eqn:E; cbn.
      * split; [|reflexivity]. intros _. split; [reflexivity|].
        apply orb_true_iff in E as [E|E];
          [left; now apply strictEqZ_iff | right; now apply strictEqString_iff].
      * split; [discriminate|]. intros [_ [H|H]].
        -- apply strictEqZ_iff in H. rewrite H in E. discriminate E.
        -- apply strictEqString_iff in H. rewrite H, orb_true_r in E. discriminate E.
  - destruct (isApiKeyError error);
      [|destruct (strictEqZ (status error) 529 ||
                  strictEqString (error_type error) "overloaded_error")];
      cbn; congruence.
Qed.

Lemma POST_reports_exhausted_retries_witness :
  (exists r,
     POST (alwaysRejects rateLimited429)
          (Resolved (requestOf [JString "We lose an hour a day"])) [] =
       Some (Resolved r,
             [Call; LogRetry 1500 1 3; Sleep 1500; Call; LogRetry 3000 2 3; Sleep 3000; Call]
               ++ [LogError rateLimited429]) /\
     (exists msg, body r = ErrorBody msg) /\
     (http_status r = 503 <->
      isApiKeyError rateLimited429 = false /\
      (status rateLimited429 = Some 529 \/
       error_type rateLimited429 = Some "overloaded_error"%string)) /\
     (http_status r <> 503 -> http_status r = 500)) /\
  POST (alwaysRejects overloaded529)
       (Resolved (requestOf [JString "We lose an hour a day"])) [] =
    Some (Rejected (typeError "Cannot read properties of undefined (reading 'includes')"),
          [Call; LogRetry 1500 1 3; Sleep 1500; Call; LogRetry 3000 2 3; Sleep 3000; Call]
            ++ [LogError overloaded529]).
Proof.
  split.
  - apply (proj1 (POST_reports_exhausted_retries
                    (alwaysRejects rateLimited429)
                    (requestOf [JString "We lose an hour a day"])
                    [JString "We lose an hour a day"] ["We lose an hour a day"%string] []
                    rateLimited429 eq_refl eq_refl ltac:(discriminate)
                    (fun _ => eq_refl) eq_refl)).
    reflexivity.
  - apply (proj2 (POST_reports_exhausted_retries
                    (alwaysRejects overloaded529)
                    (requestOf [JString "We lose an hour a day"])
                    [JString "We lose an hour a day"] ["We lose an hour a day"%string] []
                    overloaded529 eq_refl eq_refl ltac:(discriminate)
                    (fun _ => eq_refl) eq_refl)).
    reflexivity.
Defined.

(** X8. When the request is valid and the remote call resolves to a message
    whose first block is a text block, [POST] answers 200 with the text of
    that block as the analysis, whatever blocks follow, and with the number
    of transcripts that passed the filter; it logs the length of the
    analysis and its first 300 characters. *)
Theorem POST_returns_first_text_block
        (create : string -> list Event -> Outcome Message)
        (json : JsValue) (items : list JsValue) (validInterviews : list string)
        (h h1 : list Event) (analysis : string) (others : list ContentBlock) :
  destructureInterviews json = Resolved (JArray items) ->
  filterValid items = Resolved validInterviews ->
  validInterviews <> [] ->
  retryWithBackoff (create (prompt validInterviews)) 3 1500 h =
    Some (Resolved (mkMessage (Some (mkContentBlock "text" analysis :: others))), h1) ->
  POST create (Resolved json) h =
    Some (Resolved (mkResponse (SuccessBody analysis (List.length validInterviews)) 200),
          h1 ++ [LogAnalysis (String.length analysis) (substring 0 300 analysis)]).
Proof.
  intros Hd Hf Hne Hrun.
  now rewrite (POST_remote create json items validInterviews h h1 _ Hd Hf Hne Hrun).
Qed.

Lemma POST_returns_first_text_block_witness :
  POST (respondsWith [mkContentBlock "text" "PROBLEMS IDENTIFIED";
                      mkContentBlock "text" "ignored"])
       (Resolved (requestOf [JNull; JString "We lose an hour a day"; JString " "])) [] =
    Some (Resolved (mkResponse (SuccessBody "PROBLEMS IDENTIFIED" 1) 200),
          [Call] ++ [LogAnalysis (String.length "PROBLEMS IDENTIFIED")
                                 (substring 0 300 "PROBLEMS IDENTIFIED")]).
Proof.
  apply (POST_returns_first_text_block
           (respondsWith [mkContentBlock "text" "PROBLEMS IDENTIFIED";
                          mkContentBlock "text" "ignored"])
           (requestOf [JNull; JString "We lose an hour a day"; JString " "])
           [JNull; JString "We lose an hour a day"; JString " "]
           ["We lose an hour a day"%string] [] [Call]
           "PROBLEMS IDENTIFIED" [mkContentBlock "text" "ignored"]).
  - reflexivity.
  - reflexivity.
  - discriminate.
  - reflexivity.
Defined.

(** X9. A request that cannot be read is answered 500 with the general
    message, before any remote call: when reading the body fails with an
    error that the [catch] block can read (no [Error] instance, or one with
    a message) and that is neither an API key error nor an overload, when
    the body is [null], and when the list holds an entry that is neither
    falsy nor a string (a number other than zero, [true], a list, an
    object), even beside valid transcripts. When reading the body fails with
    an [Error] instance without a message there is no answer: the [catch]
    block logs the error and throws a [TypeError]. *)
Theorem POST_rejects_unreadable_requests
        (create : string -> list Event -> Outcome Message) (h : list Event) :
  (forall error,
     instanceofError error = false \/ (exists m, message error = Some m) ->
     isApiKeyError error = false ->
     strictEqZ (status error) 529 || strictEqString (error_type error) "overloaded_error" = false ->
     POST create (Rejected error) h =
       Some (Resolved (mkResponse (ErrorBody "Failed to analyze interviews. Please try again.") 500),
             h ++ [LogError error])) /\
  (forall error,
     instanceofError error = true ->
     message error = None ->
     POST create (Rejected error) h =
       Some (Rejected (typeError "Cannot read properties of undefined (reading 'includes')"), h ++ [LogError error])) /\
  (exists error,
     POST create (Resolved JNull) h =
       Some (Resolved (mkResponse (ErrorBody "Failed to analyze interviews. Please try again.") 500),
             h ++ [LogError error])) /\
  (forall json items,
     destructureInterviews json = Resolved (JArray items) ->
     existsb truthyNonString items = true ->
     POST create (Resolved json) h =
       Some (Resolved (mkResponse (ErrorBody "Failed to analyze interviews. Please try again.") 500),
             h ++ [LogError (typeError "i.trim is not a function")])).
Proof.
  split; [|split; [|split]].
  - intros error Hread Hkey Hover. unfold POST, POST_try.
    rewrite errorResponse_cases, Hkey, Hover.
    replace (unreadableError error) with false; [reflexivity|].
    unfold unreadableError.
    destruct Hread as [-> | (m & ->)]; [reflexivity | now rewrite andb_false_r].
  - intros error Hinst Hmsg. unfold POST, POST_try, errorResponse.
    now rewrite Hinst, Hmsg.
  - eexists. reflexivity.
  - intros json items Hd Hbad. unfold POST, POST_try. rewrite Hd.
    assert (Hin : invalidInput (JArray items) = false).
    { destruct items as [|i rest]; [discriminate Hbad | reflexivity]. }
    now rewrite Hin, filterValid_cases, Hbad.
Qed.

Lemma POST_rejects_unreadable_requests_witness :
  POST (respondsWith [])
       (Resolved (requestOf [JString "We lose an hour a day"; JNumber 7])) [] =
    Some (Resolved (mkResponse (ErrorBody "Failed to analyze interviews. Please try again.") 500),
          [] ++ [LogError (typeError "i.trim is not a function")]) /\
  POST (respondsWith []) (Rejected (mkJsError false None None None)) [] =
    Some (Resolved (mkResponse (ErrorBody "Failed to analyze interviews. Please try again.") 500),
          [] ++ [LogError (mkJsError false None None None)]) /\
  POST (respondsWith []) (Rejected (mkJsError true None None None)) [] =
    Some (Rejected (typeError "Cannot read properties of undefined (reading 'includes')"), [] ++ [LogError (mkJsError true None None None)]).
Proof.
  split; [|split].
  - apply (proj2 (proj2 (proj2 (POST_rejects_unreadable_requests (respondsWith []) [])))
             (requestOf [JString "We lose an hour a day"; JNumber 7])
             [JString "We lose an hour a day"; JNumber 7]).
    + reflexivity.
    + reflexivity.
  - apply (proj1 (POST_rejects_unreadable_requests (respondsWith []) [])
             (mkJsError false None None None)).
    + left. reflexivity.
    + reflexivity.
    + reflexivity.
  - apply (proj1 (proj2 (POST_rejects_unreadable_requests (respondsWith []) []))
             (mkJsError true None None None)).
    + reflexivity.
    + reflexivity.
Defined.

Lemma keptStrings_In (items : list JsValue) (s : string) :
  In s (keptStrings items) <-> In (JString s) items /\ nonBlank s = true.
Proof.
  induction items as [|i rest IH]; [cbn; tauto|].
  destruct i as [| |b|n|s0|l|l]; cbn [keptStrings In];
    try (rewrite IH; split; [intros [H1 H2]; split; [now right | exact H2]
                            | intros [[H|H] H2]; [discriminate H | now split]]).
  rewrite keeps_iff_nonBlank. destruct (nonBlank s0) eqn:E; cbn [In]; rewrite IH.
  - split.
    + intros [->|[H1 H2]]; [split; [now left | exact E] | split; [now right | exact H2]].
    + intros [[[= ->]|H] H2]; [now left | right; now split].
  - split.
    + intros [H1 H2]. split; [now right | exact H2].
    + intros [[[= ->]|H] H2]; [congruence | now split].
Qed.

(** X10. When no entry of the list is a truthy value other than a string,
    the filter does not throw and keeps exactly the strings that are not
    blank after trimming: a string is kept if and only if it is an entry of
    the list and is not blank; [null], [false], [0] and blank strings are
    dropped; and when all entries are strings the kept ones are the
    non-blank ones in their order. *)
Theorem filter_keeps_nonblank_strings (items : list JsValue) :
  existsb truthyNonString items = false ->
  exists validInterviews,
    filterValid items = Resolved validInterviews /\
    (forall s, In s validInterviews <-> In (JString s) items /\ nonBlank s = true) /\
    (List.length validInterviews <= List.length items)%nat /\
    (forall transcripts, items = map JString transcripts ->
       validInterviews = filter nonBlank transcripts).
Proof.
  intros Hok. exists (keptStrings items).
  split; [now rewrite filterValid_cases, Hok|].
  split; [intros s; apply keptStrings_In|]. split.
  - clear Hok. induction items as [|i rest IH]; [cbn; lia|].
    destruct i; cbn [keptStrings List.length]; try lia.
    destruct (truthy s && (0 <? String.length (trim s))%nat); cbn [List.length]; lia.
  - intros transcripts ->.
    assert (H := filterValid_strings transcripts).
    rewrite filterValid_cases, Hok in H. now injection H.
Qed.

Lemma filter_keeps_nonblank_strings_witness :
  exists validInterviews,
    filterValid [JNull; JString "first"; JString "  "; JBool false; JString "second"] =
      Resolved validInterviews /\
    (forall s, In s validInterviews <->
               In (JString s) [JNull; JString "first"; JString "  "; JBool false;
                               JString "second"] /\ nonBlank s = true) /\
    (List.length validInterviews <=
     List.length [JNull; JString "first"; JString "  "; JBool false; JString "second"])%nat /\
    (forall transcripts,
       [JNull; JString "first"; JString "  "; JBool false; JString "second"] =
         map JString transcripts ->
       validInterviews = filter nonBlank transcripts).
Proof.
  apply (filter_keeps_nonblank_strings
           [JNull; JString "first"; JString "  "; JBool false; JString "second"]).
  reflexivity.
Defined.

End RouteResponses.


(* ================================================================= *)
(** ** More facts about the string primitives *)

Module JsStringMore.
Import JsString JsStringFacts ParserSpec ScanSpec.

Lemma trimStart_head (s : string) :
  trimStart s = EmptyString \/
  exists c rest, trimStart s = String c rest /\ isWhiteSpace c = false.
Proof.
  induction s as [|c s IH]; [now left|].
  cbn [trimStart]. destruct (isWhiteSpace c) eqn:E; [exact IH|].
  right. now exists c, s.
Qed.

Lemma trimEnd_head (c : ascii) (rest : string) :
  isWhiteSpace c = false -> exists rest', trimEnd (String c rest) = String c rest'.
Proof.
  intros Hc. cbn [trimEnd]. destruct (trimEnd rest) as [|d r].
  - rewrite Hc. now exists EmptyString.
  - now exists (String d r).
Qed.

Lemma trimEnd_idempotent (s : string) : trimEnd (trimEnd s) = trimEnd s.
Proof.
  induction s as [|c s IH]; [reflexivity|].
  cbn [trimEnd]. destruct (trimEnd s) as [|d r] eqn:E.
  - destruct (isWhiteSpace c) eqn:Hc; [reflexivity|].
    cbn [trimEnd]. now rewrite Hc.
  - cbn [trimEnd] in *. now rewrite IH.
Qed.

(** Trimming twice is trimming once. *)
Lemma trim_idempotent (s : string) : trim (trim s) = trim s.
Proof.
  unfold trim. destruct (trimStart_head s) as [E | (c & rest & E & Hc)]; rewrite E.
  - reflexivity.
  - destruct (trimEnd_head c rest Hc) as [rest' E'].
    rewrite E'. cbn [trimStart]. rewrite Hc, <- E'. apply trimEnd_idempotent.
Qed.

Lemma oneLine_append (a b : string) : oneLine (a ++ b) = oneLine a && oneLine b.
Proof.
  induction a as [|c a IH]; [reflexivity|].
  cbn [append oneLine]. now rewrite IH, andb_assoc.
Qed.

Lemma oneLine_trimStart (s : string) : oneLine s = true -> oneLine (trimStart s) = true.
Proof.
  induction s as [|c s IH]; [trivial|].
  cbn [trimStart]. destruct (isWhiteSpace c); [|trivial].
  cbn [oneLine]. intros H. apply andb_true_iff in H as [_ H]. now apply IH.
Qed.

Lemma oneLine_trimEnd (s : string) : oneLine s = true -> oneLine (trimEnd s) = true.
Proof.
  destruct (trimEnd_prefix s) as [t H]. intros Hs. rewrite H, oneLine_append in Hs.
  now apply andb_true_iff in Hs as [Hs _].
Qed.

Lemma oneLine_trim (s : string) : oneLine s = true -> oneLine (trim s) = true.
Proof.
  intros H. unfold trim. now apply oneLine_trimEnd, oneLine_trimStart.
Qed.

Lemma split_lines_not_nil (s : string) : split_lines s <> [].
Proof.
  destruct s as [|c s]; cbn [split_lines]; [discriminate|].
  destruct (Ascii.eqb c LF); [discriminate|].
  destruct (split_lines s); discriminate.
Qed.

(** The pieces of a split hold no line feed. *)
Lemma split_lines_oneLine (s : string) : Forall (fun l => oneLine l = true) (split_lines s).
Proof.
  induction s as [|c s IH]; [repeat constructor|].
  cbn [split_lines]. destruct (Ascii.eqb c LF) eqn:E.
  - constructor; [reflexivity | exact IH].
  - destruct (split_lines s) as [|l ls]; [repeat constructor; cbn; now rewrite E|].
    inversion IH as [|? ? Hl Hls]; subst.
    constructor; [cbn [oneLine]; now rewrite E, Hl | exact Hls].
Qed.

(** A line, then a line feed, then more text: the line and the lines of the
    text. *)
Lemma split_lines_cons (l rest : string) :
  oneLine l = true ->
  split_lines (l ++ String LF rest) = l :: split_lines rest.
Proof.
  induction l as [|c l IH]; intros Hl.
  - cbn [append split_lines]. now rewrite Ascii.eqb_refl.
  - cbn [oneLine] in Hl. apply andb_true_iff in Hl as [Hc Hl].
    cbn [append split_lines]. apply negb_true_iff in Hc. now rewrite Hc, (IH Hl).
Qed.

Lemma split_lines_oneLine_id (l : string) : oneLine l = true -> split_lines l = [l].
Proof.
  induction l as [|c l IH]; intros Hl; [reflexivity|].
  cbn [oneLine] in Hl. apply andb_true_iff in Hl as [Hc Hl].
  cbn [split_lines]. apply negb_true_iff in Hc. now rewrite Hc, (IH Hl).
Qed.

(** Splitting what was joined gives the lines back. *)
Lemma split_join (lines : list string) :
  lines <> [] -> Forall (fun l => oneLine l = true) lines ->
  split_lines (join nl lines) = lines.
Proof.
  induction lines as [|l rest IH]; intros Hne Hall; [congruence|].
  inversion Hall as [|? ? Hl Hrest]; subst.
  destruct rest as [|l' rest'].
  - cbn [join]. now apply split_lines_oneLine_id.
  - change (join nl (l :: l' :: rest')) with (l ++ nl ++ join nl (l' :: rest'))%string.
    unfold nl at 1. cbn [append]. rewrite (split_lines_cons _ _ Hl).
    f_equal. apply IH; [discriminate | exact Hrest].
Qed.

(** Joining what was split gives the text back. *)
Lemma join_split (s : string) : join nl (split_lines s) = s.
Proof.
  induction s as [|c s IH]; [reflexivity|].
  cbn [split_lines]. destruct (Ascii.eqb c LF) eqn:E.
  - apply Ascii.eqb_eq in E as ->.
    destruct (split_lines s) as [|l ls] eqn:Es; [now destruct (split_lines_not_nil s)|].
    change (join nl (EmptyString :: l :: ls)) with (EmptyString ++ nl ++ join nl (l :: ls))%string.
    now rewrite IH.
  - destruct (split_lines s) as [|l ls] eqn:Es; [now destruct (split_lines_not_nil s)|].
    destruct ls as [|l' ls'].
    + cbn [join] in *. now rewrite IH.
    + change (join nl (String c l :: l' :: ls'))
        with (String c (l ++ nl ++ join nl (l' :: ls')))%string.
      change (join nl (l :: l' :: ls')) with (l ++ nl ++ join nl (l' :: ls'))%string in IH.
      now rewrite IH.
Qed.

(** The lines of two texts with a line feed between them. *)
Lemma split_lines_app (a b : string) :
  split_lines (a ++ String LF b) = split_lines a ++ split_lines b.
Proof.
  induction a as [|c a IH].
  - cbn [append split_lines]. now rewrite Ascii.eqb_refl.
  - cbn [append split_lines]. destruct (Ascii.eqb c LF); [now rewrite IH|].
    rewrite IH. destruct (split_lines a) as [|l ls] eqn:Ea;
      [now destruct (split_lines_not_nil a) | reflexivity].
Qed.

Lemma drop_includes (needle : string) (n : nat) (s : string) :
  includes needle (drop n s) = true -> includes needle s = true.
Proof.
  revert s. induction n as [|n IH]; intros s; [trivial|].
  destruct s as [|c s]; [trivial|]. cbn [drop]. intros H.
  now apply includes_cons, IH.
Qed.

(** The value of a field holds nothing its line does not hold. *)
Lemma fieldValue_includes (needle label line : string) :
  startsWith label line = true ->
  includes needle (Parser.fieldValue label line) = true -> includes needle line = true.
Proof.
  intros Hs H. unfold Parser.fieldValue in H. apply includes_trim in H.
  unfold replace in H. destruct line as [|c line].
  - cbn [findFirst] in H. rewrite Hs in H. cbn in H.
    now apply drop_includes in H.
  - cbn [findFirst] in H. rewrite Hs in H. cbn [append getSubstitution] in H.
    now apply drop_includes in H.
Qed.

End JsStringMore.


(* ================================================================= *)
(** ** The shape of what the parser returns *)

Module ParserShape.
Import JsString JsStringFacts JsStringMore Parser ParserSpec ScanSpec ParserTactics ParserFacts.

Lemma processLine_trim (st : State) (raw : string) :
  processLine st (trim raw) = processLine st raw.
Proof.
  unfold processLine. now rewrite trim_idempotent.
Qed.

Lemma scan_map_trim (lines : list string) (st : State) :
  scan (map trim lines) st = scan lines st.
Proof.
  revert st. induction lines as [|raw rest IH]; intros st; [reflexivity|].
  cbn [map]. now rewrite !scan_cons, processLine_trim, IH.
Qed.

Lemma isHeader_false (line : string) :
  isHeader line = false ->
  includes "PROBLEMS IDENTIFIED" line = false /\
  includes "RECOMMENDED FEATURES" line = false /\
  includes "TOP PRIORITY" line = false.
Proof.
  unfold isHeader. intros H.
  apply orb_false_iff in H as [H H3]. apply orb_false_iff in H as [H1 H2]. auto.
Qed.

Lemma isHeader_trim_false (raw : string) :
  isHeader raw = false -> isHeader (trim raw) = false.
Proof.
  intros H. apply isHeader_false in H as (H1 & H2 & H3). unfold isHeader.
  now rewrite !includes_trim_false.
Qed.

(** Before the first header no line does anything. *)
Lemma processLine_outside (st : State) (raw : string) :
  currentSection st = None -> isHeader (trim raw) = false -> processLine st raw = st.
Proof.
  intros Hsec Hhead. apply isHeader_false in Hhead as (H1 & H2 & H3).
  unfold processLine. cbv zeta. rewrite H1, H2, H3.
  assert (Hin : forall s, inSection st s = false) by (intros s; unfold inSection; now rewrite Hsec).
  rewrite (problemLine_elsewhere _ _ (Hin _)), (featureLine_elsewhere _ _ (Hin _)).
  apply topPriorityLine_elsewhere, Hin.
Qed.

Lemma scan_outside (lines : list string) (st : State) :
  currentSection st = None ->
  Forall (fun raw => isHeader raw = false) lines ->
  scan lines st = st.
Proof.
  intros Hsec H. induction H as [|raw rest Hraw _ IH]; [reflexivity|].
  rewrite scan_cons, processLine_outside; auto using isHeader_trim_false.
Qed.

(** The problems collected so far all carry their evidence. *)
Lemma pushProblem_evidence (st : State) :
  Forall (fun p => evidence p <> None) (problems st) ->
  Forall (fun p => evidence p <> None) (pushProblem st).
Proof.
  intros H. unfold pushProblem. destruct (currentProblem st) as [p|]; [|exact H].
  destruct (truthy (title p)); [|exact H].
  apply Forall_app. split; [exact H|]. repeat constructor. discriminate.
Qed.

Lemma problemLine_problems (line : string) (st : State) :
  problems (problemLine line st) = problems st \/
  problems (problemLine line st) = pushProblem st.
Proof.
  unfold problemLine. split_ifs; cbn; auto.
Qed.

Lemma processLine_problems (st : State) (raw : string) :
  problems (processLine st raw) = problems st \/
  problems (processLine st raw) = pushProblem st.
Proof.
  unfold processLine. cbv zeta.
  destruct (includes "PROBLEMS IDENTIFIED" (trim raw)); [now left|].
  destruct (includes "RECOMMENDED FEATURES" (trim raw)); [now right|].
  destruct (includes "TOP PRIORITY" (trim raw)); [now left|].
  destruct (topPriorityLine_frame (trim raw) (featureLine (trim raw) (problemLine (trim raw) st)))
    as (-> & _).
  destruct (featureLine_frame (trim raw) (problemLine (trim raw) st)) as (-> & _).
  apply problemLine_problems.
Qed.

Lemma scan_evidence (lines : list string) (st : State) :
  Forall (fun p => evidence p <> None) (problems st) ->
  Forall (fun p => evidence p <> None) (problems (scan lines st)).
Proof.
  revert st. induction lines as [|raw rest IH]; intros st H; [exact H|].
  rewrite scan_cons. apply IH.
  destruct (processLine_problems st raw) as [-> | ->]; [exact H|].
  now apply pushProblem_evidence.
Qed.

(** Every problem of the result carries its list of evidence. *)
Lemma parse_evidence (text_ : string) :
  Forall (fun p => evidence p <> None) (r_problems (parseAnalysisResults text_)).
Proof.
  unfold parseAnalysisResults, finish. cbn [r_problems].
  apply pushProblem_evidence, scan_evidence. constructor.
Qed.

Lemma fieldValue_not_header (label line : string) :
  startsWith label line = true -> isHeader line = false ->
  isHeader (fieldValue label line) = false.
Proof.
  intros Hs Hh. apply isHeader_false in Hh as (H1 & H2 & H3). unfold isHeader.
  repeat match goal with
         | |- context [includes ?n (fieldValue label line)] =>
             let E := fresh "E" in
             destruct (includes n (fieldValue label line)) eqn:E;
             [apply (fieldValue_includes n label line Hs) in E; congruence|]
         end.
  reflexivity.
Qed.

Lemma problemTitlesFound_not_header (lines : list string) (sec : option Section_) :
  Forall (fun t => isHeader t = false) (problemTitlesFound sec lines).
Proof.
  revert sec. induction lines as [|raw rest IH]; intros sec; [constructor|].
  cbn [problemTitlesFound]. apply Forall_app. split; [|apply IH].
  unfold problemTitleOn.
  destruct (isHeader (trim raw)) eqn:Eh; [constructor|].
  destruct (isSection sec problems_); [|constructor].
  destruct (startsWith "Problem:" (trim raw)) eqn:Es; [|constructor].
  destruct (truthy (fieldValue "Problem:" (trim raw))); cbn; [|constructor].
  repeat constructor. now apply fieldValue_not_header.
Qed.

Lemma featureNamesFound_not_header (lines : list string) (sec : option Section_) :
  Forall (fun t => isHeader t = false) (featureNamesFound sec lines).
Proof.
  revert sec. induction lines as [|raw rest IH]; intros sec; [constructor|].
  cbn [featureNamesFound]. apply Forall_app. split; [|apply IH].
  unfold featureNameOn.
  destruct (isHeader (trim raw)) eqn:Eh; [constructor|].
  destruct (isSection sec features_); [|constructor].
  destruct (startsWith "Feature:" (trim raw)) eqn:Es; [|constructor].
  destruct (truthy (fieldValue "Feature:" (trim raw))); cbn; [|constructor].
  repeat constructor. now apply fieldValue_not_header.
Qed.



(** *** Properties of the parser *)

(** A blank line does nothing, in any section. *)
Lemma processLine_blank (st : State) (raw : string) :
  trim raw = EmptyString -> processLine st raw = st.
Proof.
  intros H. unfold processLine. rewrite H. cbv zeta.
  change (includes "PROBLEMS IDENTIFIED" EmptyString) with false.
  change (includes "RECOMMENDED FEATURES" EmptyString) with false.
  change (includes "TOP PRIORITY" EmptyString) with false.
  cbv iota.
  assert (Hp : problemLine EmptyString st = st).
  { unfold problemLine. cbn [startsWith String.prefix]. now rewrite !andb_false_r. }
  assert (Hf : featureLine EmptyString st = st).
  { unfold featureLine. cbn [startsWith String.prefix]. now rewrite !andb_false_r. }
  rewrite Hp, Hf. unfold topPriorityLine, topPriorityValue.
  cbn [startsWith String.prefix].
  destruct (inSection st topPriority_); [|reflexivity].
  destruct st as [ps fs [t|] sec cp cf ce]; reflexivity.
Qed.

Lemma scan_significant (lines : list string) (st : State) :
  scan (filter (fun l => negb (String.eqb l EmptyString)) (map trim lines)) st = scan lines st.
Proof.
  revert st. induction lines as [|raw rest IH]; intros st; [reflexivity|].
  cbn [map filter]. destruct (String.eqb (trim raw) EmptyString) eqn:E; cbn [negb].
  - apply String.eqb_eq in E. now rewrite IH, scan_cons, (processLine_blank _ _ E).
  - now rewrite !scan_cons, processLine_trim, IH.
Qed.

(** X11. White space around a line and blank lines do not matter: two
    texts with the same lines, once the lines are trimmed and the blank ones
    are left out, parse to the same result; so indentation, trailing
    spaces, a carriage return before each line feed and empty lines change
    nothing. A text parses as the text of its trimmed lines does. *)
Theorem parser_reads_trimmed_lines (a b : string) :
  (significantLines a = significantLines b ->
   parseAnalysisResults a = parseAnalysisResults b) /\
  parseAnalysisResults (trimLines a) = parseAnalysisResults a.
Proof.
  split.
  - intros E. unfold parseAnalysisResults, significantLines in *.
    now rewrite <- (scan_significant (split_lines a)), E, scan_significant.
  - unfold parseAnalysisResults, trimLines. rewrite split_join.
    + apply f_equal, scan_map_trim.
    + intros E. apply map_eq_nil in E. now apply split_lines_not_nil in E.
    + apply Forall_map. eapply Forall_impl; [|apply split_lines_oneLine].
      intros l. apply oneLine_trim.
Qed.

Lemma parser_reads_trimmed_lines_witness :
  parseAnalysisResults
    ("  PROBLEMS IDENTIFIED" ++ String "013" (String LF EmptyString)
       ++ String LF EmptyString ++ String "009" "Problem: Login  ") =
  parseAnalysisResults ("PROBLEMS IDENTIFIED" ++ String LF EmptyString ++ "Problem: Login").
Proof.
  apply (proj1 (parser_reads_trimmed_lines
                  ("  PROBLEMS IDENTIFIED" ++ String "013" (String LF EmptyString)
                     ++ String LF EmptyString ++ String "009" "Problem: Login  ")
                  ("PROBLEMS IDENTIFIED" ++ String LF EmptyString ++ "Problem: Login"))).
  vm_compute. reflexivity.
Defined.

(** X12. Text before the first section header is ignored: when no line of
    [preamble] holds one of the three header strings, the text made of
    [preamble], a line feed and [rest] parses as [rest] alone does. *)
Theorem parser_ignores_preamble (preamble rest : string) :
  Forall (fun raw => isHeader raw = false) (split_lines preamble) ->
  parseAnalysisResults (preamble ++ String LF rest) = parseAnalysisResults rest.
Proof.
  intros H. unfold parseAnalysisResults.
  now rewrite split_lines_app, scan_app, (scan_outside _ initial eq_refl H).
Qed.

Lemma parser_ignores_preamble_witness :
  parseAnalysisResults
    (("Here is the analysis." ++ String LF "Problem: not counted")
       ++ String LF ("PROBLEMS IDENTIFIED" ++ String LF "Problem: Login")) =
  parseAnalysisResults ("PROBLEMS IDENTIFIED" ++ String LF "Problem: Login").
Proof.
  apply (parser_ignores_preamble
           ("Here is the analysis." ++ String LF "Problem: not counted")
           ("PROBLEMS IDENTIFIED" ++ String LF "Problem: Login")).
  vm_compute. repeat constructor.
Defined.

(** X13. No problem title and no feature name of the result holds a
    section header string: a line that holds "PROBLEMS IDENTIFIED",
    "RECOMMENDED FEATURES" or "TOP PRIORITY" is always read as a header,
    also when it starts with "Problem:" or "Feature:". *)
Theorem emitted_names_hold_no_header (text_ : string) :
  Forall (fun p => isHeader (title p) = false) (r_problems (parseAnalysisResults text_)) /\
  Forall (fun f => isHeader (feature f) = false) (r_features (parseAnalysisResults text_)).
Proof.
  unfold parseAnalysisResults. split.
  - apply Forall_map with (f := title) (P := fun t => isHeader t = false).
    rewrite scan_titles. apply problemTitlesFound_not_header.
  - apply Forall_map with (f := feature) (P := fun t => isHeader t = false).
    rewrite scan_names. apply featureNamesFound_not_header.
Qed.


End ParserShape.


(* ================================================================= *)
(** ** Facts about the page *)

Module PageFacts.
Import JsString JsStringFacts JsStringMore Parser ParserSpec ParserFacts ParserShape.
Import Retry Route RetrySpec RouteSpec RunSpec RetryFacts RetryRuns RouteFacts RouteResponses.
Import Page PageSpec.

Local Open Scope nat_scope.

(** *** Removing by index *)

Lemma filterIndex_above {A : Type} (i index : nat) (l : list A) :
  index < i -> filterIndex i index l = l.
Proof.
  revert i. induction l as [|x rest IH]; intros i Hi; [reflexivity|].
  cbn [filterIndex]. assert (E : Nat.eqb i index = false) by (apply Nat.eqb_neq; lia).
  rewrite E. cbn [negb]. f_equal. apply IH. lia.
Qed.

Lemma filterIndex_firstn_skipn {A : Type} (i index : nat) (l : list A) :
  i <= index ->
  filterIndex i index l = firstn (index - i) l ++ skipn (S (index - i)) l.
Proof.
  revert i. induction l as [|x rest IH]; intros i Hi.
  - now rewrite firstn_nil, skipn_nil.
  - cbn [filterIndex]. destruct (Nat.eqb i index) eqn:E.
    + apply Nat.eqb_eq in E. subst i. rewrite Nat.sub_diag. cbn [negb firstn skipn app].
      apply filterIndex_above. lia.
    + apply Nat.eqb_neq in E. cbn [negb].
      replace (index - i) with (S (index - S i)) by lia.
      cbn [firstn skipn app]. f_equal. apply IH. lia.
Qed.

Lemma filterIndex_Forall {A : Type} (P : A -> Prop) (i index : nat) (l : list A) :
  Forall P l -> Forall P (filterIndex i index l).
Proof.
  intros H. revert i. induction H as [|x rest Hx _ IH]; intros i; [constructor|].
  cbn [filterIndex]. destruct (negb (Nat.eqb i index)); [constructor; auto | apply IH].
Qed.

(** X15. Removing an interview by its index drops exactly the entry at
    that index and keeps the others in their order; an index past the end
    changes nothing. This holds of the uploaded files and of the pasted
    texts alike, and neither removal touches the other list. *)
Theorem remove_drops_the_indexed_entry (index : nat) (st : Home) :
  pastedText (removePastedText index st) =
    firstn index (pastedText st) ++ skipn (S index) (pastedText st) /\
  uploadedFiles (removePastedText index st) = uploadedFiles st /\
  uploadedFiles (removeFile index st) =
    firstn index (uploadedFiles st) ++ skipn (S index) (uploadedFiles st) /\
  pastedText (removeFile index st) = pastedText st /\
  (index < List.length (pastedText st) ->
   S (List.length (pastedText (removePastedText index st))) = List.length (pastedText st)) /\
  (List.length (pastedText st) <= index -> removePastedText index st = st) /\
  (List.length (uploadedFiles st) <= index -> removeFile index st = st).
Proof.
  assert (Hp := filterIndex_firstn_skipn 0 index (pastedText st) (Nat.le_0_l _)).
  assert (Hf := filterIndex_firstn_skipn 0 index (uploadedFiles st) (Nat.le_0_l _)).
  rewrite Nat.sub_0_r in Hp, Hf.
  split; [exact Hp|]. split; [reflexivity|]. split; [exact Hf|]. split; [reflexivity|].
  split; [|split].
  - intros Hlt. cbn [removePastedText pastedText]. rewrite Hp, length_app, length_firstn, length_skipn.
    lia.
  - intros Hge. unfold removePastedText. rewrite Hp, firstn_all2, skipn_all2, app_nil_r by lia.
    now destruct st.
  - intros Hge. unfold removeFile. rewrite Hf, firstn_all2, skipn_all2, app_nil_r by lia.
    now destruct st.
Qed.

Lemma remove_drops_the_indexed_entry_witness :
  S (List.length (pastedText (removePastedText 1 (useSampleData initialHome)))) =
  List.length (pastedText (useSampleData initialHome)).
Proof.
  apply (remove_drops_the_indexed_entry 1 (useSampleData initialHome)).
  cbn. lia.
Defined.

(** *** The states of the page *)

Lemma truthy_trim_nonBlank (t : string) : truthy (trim t) = nonBlank t.
Proof.
  unfold nonBlank. now destruct (trim t).
Qed.

Lemma samples_nonBlank : Forall (fun t => nonBlank t = true) SAMPLE_INTERVIEWS.
Proof.
  repeat constructor; vm_compute; reflexivity.
Qed.

Lemma rendered_state (st : Home) (a : Action) :
  rendered st a = true ->
  (appState st = landing /\ a <> NewAnalysis) \/ (appState st = results /\ a = NewAnalysis).
Proof.
  unfold rendered. destruct (appState st); destruct a; try discriminate;
    intros _; (left; split; [reflexivity | discriminate]) || (right; split; reflexivity).
Qed.

Lemma act_consistent (st : Home) (a : Action) :
  consistent st -> rendered st a = true -> consistent (act st a).
Proof.
  intros (Hnot & Hland & Hres & Hpasted & Hemail) Hr.
  destruct (rendered_state st a Hr) as [[Hs Ha] | [Hs ->]].
  - destruct (Hland Hs) as [Han Hpr].
    destruct a as [| |files|files|answer|index|index| | |readFiles fetchAnalyze|];
      try congruence; unfold consistent; cbn [act].
    + cbn. rewrite Hs. repeat split; try congruence; assumption.
    + cbn. rewrite Hs. repeat split; try congruence; assumption.
    + cbn. rewrite Hs. repeat split; try congruence; assumption.
    + destruct files as [fs|]; cbn; rewrite Hs; repeat split; try congruence; assumption.
    + destruct answer as [t|]; cbn;
        [|rewrite Hs; repeat split; try congruence; assumption].
      destruct (truthy (trim t)) eqn:E; cbn;
        [|rewrite Hs; repeat split; try congruence; assumption].
      rewrite Hs. repeat split; try congruence.
      apply Forall_app. split; [assumption|]. repeat constructor.
      now rewrite <- truthy_trim_nonBlank.
    + cbn. rewrite Hs. repeat split; try congruence; assumption.
    + cbn. rewrite Hs. repeat split; try congruence. now apply filterIndex_Forall.
    + cbn. rewrite Hs. repeat split; try congruence. apply samples_nonBlank.
    + cbn. rewrite Hs. repeat split; try congruence. constructor.
    + unfold analyzeInterviews.
      destruct (readFiles (uploadedFiles st)) as [contents|e1]; cbn;
        [|repeat split; try congruence; assumption].
      destruct (fetchAnalyze (allInterviews contents st)) as [result|e2]; cbn;
        [|repeat split; try congruence; assumption].
      destruct (success result); cbn; repeat split; try congruence; assumption.
  - unfold consistent. cbn. repeat split; try congruence. constructor.
Qed.

(** Every state the page can be in is consistent. *)
Lemma reachable_consistent (st : Home) : Reachable st -> consistent st.
Proof.
  induction 1 as [|st _ IH|st a _ IH Hr].
  - unfold consistent. cbn. repeat split; try congruence; constructor.
  - exact IH.
  - now apply act_consistent.
Qed.

(** X16. Between two actions of the user the page is never left in the
    analyzing state. In the landing state there is no analysis and there are
    no parsed results; in the results state the parsed results are there,
    they are the parse of the stored analysis, and each problem has its
    list of evidence, which the results view maps over. The pasted texts are
    never blank. *)
Theorem reachable_states_are_consistent (st : Home) :
  Reachable st ->
  appState st <> analyzing /\
  (appState st = landing -> analysis st = EmptyString /\ parsedResults st = None) /\
  (appState st = results ->
   exists r, parsedResults st = Some r /\
             r = parseAnalysisResults (analysis st) /\
             Forall (fun p => evidence p <> None) (r_problems r)) /\
  Forall (fun t => nonBlank t = true) (pastedText st).
Proof.
  intros H. destruct (reachable_consistent st H) as (Hnot & Hland & Hres & Hpasted & _).
  repeat split; try assumption; try (now apply Hland).
  intros Hs. exists (parseAnalysisResults (analysis st)).
  split; [now apply Hres|]. split; [reflexivity | apply parse_evidence].
Qed.

Lemma reachable_states_are_consistent_witness :
  appState (act (act initialHome UseSampleData) (RemovePastedText 0)) <> analyzing /\
  Forall (fun t => nonBlank t = true)
         (pastedText (act (act initialHome UseSampleData) (RemovePastedText 0))).
Proof.
  destruct (reachable_states_are_consistent
              (act (act initialHome UseSampleData) (RemovePastedText 0)))
    as (H1 & _ & _ & H4).
  - apply reach_act; [apply reach_act; [apply reach_initial | reflexivity] | reflexivity].
  - split; assumption.
Defined.

(** *** The page and the route together *)

Lemma filter_all {A : Type} (f : A -> bool) (l : list A) :
  Forall (fun x => f x = true) l -> filter f l = l.
Proof.
  induction 1 as [|x rest Hx _ IH]; [reflexivity|].
  cbn [filter]. now rewrite Hx, IH.
Qed.

(** What the route keeps of the interviews the page sends. *)
Lemma route_keeps (st : Home) :
  Forall (fun t => nonBlank t = true) (pastedText st) ->
  filterValid (map JString (allInterviews (map file_text (uploadedFiles st)) st)) =
  Resolved (keptInterviews st).
Proof.
  intros H. unfold allInterviews, keptInterviews.
  now rewrite filterValid_strings, filter_app, (filter_all _ _ H).
Qed.

Lemma destructure_requestOf (entries : list JsValue) :
  destructureInterviews (requestOf entries) = Resolved (JArray entries).
Proof. reflexivity. Qed.

(** X17. From any state the page can be in: when the route's remote call
    resolves, through the retry loop, to a message, the page ends in the
    results state with the text of the message's first text block as the
    analysis and its parse as the parsed results, and shows no alert. The
    prompt sent holds the texts of the uploaded files that are not blank,
    in order, and then every pasted text. *)
Theorem analysis_reaches_the_results_view
        (create : string -> list Event -> Outcome Message) (h h1 : list Event)
        (st : Home) (message_ : Message) :
  Reachable st ->
  keptInterviews st <> [] ->
  retryWithBackoff (create (prompt (keptInterviews st))) 3 1500 h =
    Some (Resolved message_, h1) ->
  analyzeInterviews readAll (fetchFromRoute create h) st =
    (mkHome results (isDragging st) (uploadedFiles st) (pastedText st)
            (analysisOf message_)
            (Some (parseAnalysisResults (analysisOf message_)))
            (email st) (isVisible st),
     []).
Proof.
  intros Hreach Hne Hrun.
  destruct (reachable_consistent st Hreach) as (_ & _ & _ & Hpasted & _).
  unfold analyzeInterviews, readAll, fetchFromRoute.
  rewrite (POST_remote create _ _ _ _ _ _ (destructure_requestOf _) (route_keeps st Hpasted)
                       Hne Hrun).
  reflexivity.
Qed.

Lemma analysis_reaches_the_results_view_witness :
  analyzeInterviews readAll
                    (fetchFromRoute (respondsWith [mkContentBlock "text" "PROBLEMS IDENTIFIED"]) [])
                    (act initialHome (PasteText (Some "We lose an hour a day"%string))) =
    (mkHome results false [] ["We lose an hour a day"%string]
            "PROBLEMS IDENTIFIED"
            (Some (parseAnalysisResults "PROBLEMS IDENTIFIED"))
            EmptyString false,
     []).
Proof.
  apply (analysis_reaches_the_results_view
           (respondsWith [mkContentBlock "text" "PROBLEMS IDENTIFIED"]) [] [Call]
           (act initialHome (PasteText (Some "We lose an hour a day"%string)))
           (mkMessage (Some [mkContentBlock "text" "PROBLEMS IDENTIFIED"]))).
  - apply reach_act; [apply reach_initial | reflexivity].
  - discriminate.
  - reflexivity.
Defined.

(** The message of an error body. *)
Lemma errorResponse_result (error : JsError) (r : Response) :
  errorResponse error = Resolved r ->
  exists msg, resultOf r = mkAnalysisResult false EmptyString 0 (Some msg) /\
              body r = ErrorBody msg /\ truthy msg = true /\
              msg <> "Please provide at least one interview transcript"%string.
Proof.
  rewrite errorResponse_cases.
  destruct (unreadableError error); [discriminate|]. intros [= <-].
  destruct (isApiKeyError error);
    [|destruct (strictEqZ (status error) 529 || strictEqString (error_type error) "overloaded_error")];
    eexists; repeat split; discriminate.
Qed.

(** X18. From any state in which the Analyze button is rendered, an
    analysis that fails leaves the page exactly as it was, interviews
    included, and shows one alert: "No valid interview transcripts provided"
    when every uploaded file is blank and nothing was pasted; the message of
    the [catch] block's answer when the remote call is rejected with an
    error that block can read; and, when the remote call is rejected with
    an [Error] instance without a message, so that the [catch] block throws
    and no JSON answer comes back, the page's own message about the
    connection, after a log to the console. The route's complaint about a
    missing list is never shown. *)
Theorem failed_analysis_keeps_the_interviews
        (create : string -> list Event -> Outcome Message) (h : list Event) (st : Home) :
  Reachable st ->
  rendered st (Analyze readAll (fetchFromRoute create h)) = true ->
  (keptInterviews st = [] ->
   analyzeInterviews readAll (fetchFromRoute create h) st =
     (st, [Alert "No valid interview transcripts provided"])) /\
  (forall error h1,
     keptInterviews st <> [] ->
     retryWithBackoff (create (prompt (keptInterviews st))) 3 1500 h =
       Some (Rejected error, h1) ->
     (instanceofError error = false \/ (exists m, message error = Some m) ->
      exists r msg,
        errorResponse error = Resolved r /\
        body r = ErrorBody msg /\
        analyzeInterviews readAll (fetchFromRoute create h) st = (st, [Alert msg])) /\
     (instanceofError error = true -> message error = None ->
      analyzeInterviews readAll (fetchFromRoute create h) st =
        (st, [ConsoleError;
              Alert "Failed to analyze interviews. Please check your connection and try again."]))) /\
  (forall st' effects,
     analyzeInterviews readAll (fetchFromRoute create h) st = (st', effects) ->
     ~ In (Alert "Please provide at least one interview transcript") effects).
Proof.
  intros Hreach Hr.
  destruct (reachable_consistent st Hreach) as (_ & _ & _ & Hpasted & _).
  destruct (rendered_state st _ Hr) as [[Hs _] | [_ Hbad]]; [|discriminate Hbad].
  assert (Hsame : mkHome landing (isDragging st) (uploadedFiles st) (pastedText st)
                         (analysis st) (parsedResults st) (email st) (isVisible st) = st).
  { destruct st; cbn in *. now subst. }
  assert (Hsome : allInterviews (map file_text (uploadedFiles st)) st <> []).
  { unfold rendered in Hr. rewrite Hs in Hr. unfold allInterviews.
    destruct (uploadedFiles st), (pastedText st); cbn in *; congruence. }
  assert (Hin : invalidInput (JArray (map JString
                  (allInterviews (map file_text (uploadedFiles st)) st))) = false).
  { destruct (allInterviews (map file_text (uploadedFiles st)) st); [congruence|reflexivity]. }
  split; [|split].
  - intros Hkept. unfold analyzeInterviews, readAll, fetchFromRoute, POST, POST_try.
    rewrite destructure_requestOf, Hin, (route_keeps st Hpasted), Hkept.
    cbn. now rewrite Hsame.
  - intros error h1 Hne Hrun.
    assert (HP := POST_remote create _ _ _ _ _ _ (destructure_requestOf _)
                              (route_keeps st Hpasted) Hne Hrun).
    cbv beta iota in HP. split.
    + intros Hread.
      assert (Hun : unreadableError error = false).
      { unfold unreadableError.
        destruct Hread as [-> | (m & ->)]; [reflexivity | now rewrite andb_false_r]. }
      destruct (errorResponse error) as [r|thrown] eqn:E.
      2:{ destruct (errorResponse_throws _ _ E) as [Hun' _]. congruence. }
      destruct (errorResponse_result error r E) as (msg & Hres & Hbody & Hmsg & _).
      exists r, msg. split; [reflexivity|]. split; [exact Hbody|].
      unfold analyzeInterviews, readAll, fetchFromRoute.
      rewrite HP, Hres. cbn. now rewrite Hmsg, Hsame.
    + intros Hinst Hnone.
      unfold analyzeInterviews, readAll, fetchFromRoute. rewrite HP.
      unfold errorResponse. rewrite Hinst, Hnone. now rewrite Hsame.
  - intros st' effects. unfold analyzeInterviews, readAll, fetchFromRoute.
    destruct (keptInterviews st) as [|t rest] eqn:Hkept.
    + unfold POST, POST_try.
      rewrite destructure_requestOf, Hin, (route_keeps st Hpasted), Hkept. cbn.
      intros [= _ <-] [H|[]]. discriminate H.
    + destruct (retry_run (create (prompt (t :: rest))) 3 1500 h)
        as (k & _ & _ & Hrun & _); [lia|].
      assert (Hne : keptInterviews st <> []) by (rewrite Hkept; discriminate).
      rewrite <- Hkept in Hrun.
      rewrite (POST_remote create _ _ _ _ _ _ (destructure_requestOf _)
                           (route_keeps st Hpasted) Hne Hrun).
      destruct (create (prompt (keptInterviews st)) (h ++ retryHistory 3 1500 k))
        as [m|error].
      * cbn. intros [= _ <-] [].
      * destruct (errorResponse error) as [r|thrown] eqn:E.
        -- destruct (errorResponse_result error r E) as (msg & Hres & Hbody & Hmsg & Hother).
           rewrite Hres. cbn. rewrite Hmsg. intros [= _ <-] [H|[]].
           injection H as ->. now destruct Hother.
        -- intros [= _ <-] [H|[H|[]]]; discriminate H.
Qed.

Lemma failed_analysis_keeps_the_interviews_witness :
  analyzeInterviews readAll (fetchFromRoute (respondsWith []) [])
                    (act initialHome (FileInput (Some [mkFile "notes.txt" "text/plain" "  "]))) =
    (act initialHome (FileInput (Some [mkFile "notes.txt" "text/plain" "  "])),
     [Alert "No valid interview transcripts provided"]) /\
  analyzeInterviews readAll (fetchFromRoute (alwaysRejects overloaded529) [])
                    (act initialHome (PasteText (Some "We lose an hour a day"%string))) =
    (act initialHome (PasteText (Some "We lose an hour a day"%string)),
     [ConsoleError;
      Alert "Failed to analyze interviews. Please check your connection and try again."]).
Proof.
  split.
  - apply (proj1 (failed_analysis_keeps_the_interviews
                    (respondsWith []) []
                    (act initialHome (FileInput (Some [mkFile "notes.txt" "text/plain" "  "])))
                    ltac:(apply reach_act; [apply reach_initial | reflexivity]) eq_refl)).
    reflexivity.
  - apply (proj2 (proj1 (proj2 (failed_analysis_keeps_the_interviews
                    (alwaysRejects overloaded529) []
                    (act initialHome (PasteText (Some "We lose an hour a day"%string)))
                    ltac:(apply reach_act; [apply reach_initial | reflexivity]) eq_refl))
                    overloaded529
                    [Call; LogRetry 1500 1 3; Sleep 1500; Call; LogRetry 3000 2 3; Sleep 3000; Call]
                    ltac:(discriminate) eq_refl)).
    + reflexivity.
    + reflexivity.
Defined.

(** *** The report *)

Lemma problemBlocks_defined (ps : list Problem) (i : nat) :
  Forall (fun p => evidence p <> None) ps ->
  exists bs, problemBlocks i ps = Resolved bs /\ List.length bs = List.length ps.
Proof.
  intros H. revert i. induction H as [|p rest Hp _ IH]; intros i.
  - now exists [].
  - cbn [problemBlocks]. unfold problemBlock.
    destruct (evidence p) as [ev|]; [|congruence].
    destruct (IH (S i)) as (bs & -> & Hlen).
    eexists. split; [reflexivity|]. cbn. now rewrite Hlen.
Qed.

Lemma markdownOf_defined (r : ParsedResults) (localeDate : string) :
  Forall (fun p => evidence p <> None) (r_problems r) ->
  exists markdown, markdownOf (Some r) localeDate = Resolved markdown /\
                   startsWith ("# ProdSignal Analysis Report" ++ ln ++ "Generated on "
                               ++ localeDate ++ ln) markdown = true.
Proof.
  intros H. unfold markdownOf.
  destruct (problemBlocks_defined _ 0 H) as (bs & -> & _).
  eexists. split; [reflexivity|].
  apply startsWith_iff. eexists.
  rewrite !append_assoc. reflexivity.
Qed.

(** X19. The report can always be built from what the parser returns, and
    so in every state where the export button is rendered: [exportToMarkdown]
    offers one download, a markdown file named after the current time whose
    text starts with the title line and the date line. A problem without a
    list of evidence, which the parser never returns, makes it throw
    instead. *)
Theorem export_never_throws_on_parsed_results (localeDate : string) (now : nat) :
  (forall st,
     Reachable st -> appState st = results ->
     exists markdown,
       exportToMarkdown localeDate now st =
         Resolved [Download ("prodsignal-analysis-" ++ ofNat now ++ ".md")
                            "text/markdown" markdown] /\
       startsWith ("# ProdSignal Analysis Report" ++ ln ++ "Generated on "
                   ++ localeDate ++ ln) markdown = true) /\
  (forall text_,
     exists markdown,
       markdownOf (Some (parseAnalysisResults text_)) localeDate = Resolved markdown) /\
  (forall p rest fs tp,
     evidence p = None ->
     exists error,
       markdownOf (Some (mkParsedResults (p :: rest) fs tp)) localeDate = Rejected error).
Proof.
  split; [|split].
  - intros st Hreach Hs.
    destruct (reachable_consistent st Hreach) as (_ & _ & Hres & _).
    unfold exportToMarkdown. rewrite (Hres Hs).
    destruct (markdownOf_defined (parseAnalysisResults (analysis st)) localeDate
                                 (parse_evidence _)) as (md & -> & Hstart).
    now exists md.
  - intros text_.
    destruct (markdownOf_defined (parseAnalysisResults text_) localeDate (parse_evidence _))
      as (md & -> & _).
    now exists md.
  - intros p rest fs tp Hp. unfold markdownOf. cbn [r_problems problemBlocks].
    unfold problemBlock. rewrite Hp. eexists. reflexivity.
Qed.

Lemma export_never_throws_on_parsed_results_witness :
  exists markdown,
    exportToMarkdown "1/2/2026" 42
      (act (act initialHome (PasteText (Some "We lose an hour a day"%string)))
           (Analyze readAll
                    (fetchFromRoute (respondsWith [mkContentBlock "text" "PROBLEMS IDENTIFIED"])
                                    []))) =
      Resolved [Download ("prodsignal-analysis-" ++ ofNat 42 ++ ".md")
                         "text/markdown" markdown] /\
    startsWith ("# ProdSignal Analysis Report" ++ ln ++ "Generated on "
                ++ "1/2/2026" ++ ln) markdown = true.
Proof.
  apply (proj1 (export_never_throws_on_parsed_results "1/2/2026" 42)).
  - apply reach_act; [apply reach_act; [apply reach_initial | reflexivity] | reflexivity].
  - reflexivity.
Defined.

(** *** Dropped files *)

Lemma endsWith_iff (suffix s : string) :
  endsWith suffix s = true <-> exists before, s = (before ++ suffix)%string.
Proof.
  induction s as [|c s IH].
  - cbn [endsWith]. rewrite orb_false_r, String.eqb_eq. split.
    + intros ->. now exists EmptyString.
    + intros [before H]. destruct before; cbn in H; [congruence|discriminate].
  - cbn [endsWith]. rewrite orb_true_iff, String.eqb_eq, IH. split.
    + intros [-> | [before ->]]; [now exists EmptyString | now exists (String c before)].
    + intros [before H]. destruct before as [|d before]; cbn in H.
      * now left.
      * right. injection H as _ ->. now exists before.
Qed.

Lemma acceptedOnDrop_iff (f : File) : acceptedOnDrop f = true <-> textFile f.
Proof.
  unfold acceptedOnDrop, textFile.
  rewrite !orb_true_iff, String.eqb_eq, !endsWith_iff. tauto.
Qed.

(** X20. After a drop the uploaded files are the files already there, and
    after them those dropped files that have the MIME type [text/plain] or
    a name that ends in [.md] or [.txt], in the order they were dropped and
    each as many times as it was dropped: the list is the old one followed
    by the dropped one filtered by any test that decides that property. No
    other dropped file is added. The rest of the state is not touched, but
    for the drag highlight, which is switched off. *)
Theorem drop_adds_text_files_only (files : list File) (st : Home) :
  (forall accepts : File -> bool,
     (forall f, accepts f = true <-> textFile f) ->
     uploadedFiles (handleDrop files st) = uploadedFiles st ++ filter accepts files) /\
  (forall f,
     In f (uploadedFiles (handleDrop files st)) <->
     In f (uploadedFiles st) \/ (In f files /\ textFile f)) /\
  firstn (List.length (uploadedFiles st)) (uploadedFiles (handleDrop files st)) =
    uploadedFiles st /\
  (Forall textFile files ->
   uploadedFiles (handleDrop files st) = uploadedFiles st ++ files) /\
  (Forall (fun f => ~ textFile f) files ->
   uploadedFiles (handleDrop files st) = uploadedFiles st) /\
  pastedText (handleDrop files st) = pastedText st /\
  appState (handleDrop files st) = appState st /\
  analysis (handleDrop files st) = analysis st /\
  parsedResults (handleDrop files st) = parsedResults st /\
  email (handleDrop files st) = email st /\
  isVisible (handleDrop files st) = isVisible st /\
  isDragging (handleDrop files st) = false.
Proof.
  cbn [handleDrop uploadedFiles pastedText isDragging appState analysis parsedResults
       email isVisible].
  split; [|split; [|split; [|split; [|split]]]].
  - intros accepts Hacc. f_equal. apply filter_ext. intros f.
    destruct (accepts f) eqn:E.
    + now apply acceptedOnDrop_iff, Hacc.
    + destruct (acceptedOnDrop f) eqn:E'; [|reflexivity].
      apply acceptedOnDrop_iff, Hacc in E'. congruence.
  - intros f. rewrite in_app_iff, filter_In, acceptedOnDrop_iff. tauto.
  - rewrite firstn_app, Nat.sub_diag, firstn_all. cbn. apply app_nil_r.
  - intros Hall. f_equal. apply filter_all.
    eapply Forall_impl; [|exact Hall]. intros f. apply acceptedOnDrop_iff.
  - intros Hnone. rewrite <- app_nil_r. f_equal.
    induction Hnone as [|f rest Hf _ IH]; [reflexivity|].
    cbn [filter]. destruct (acceptedOnDrop f) eqn:E; [|exact IH].
    now apply acceptedOnDrop_iff in E.
  - repeat split.
Qed.

Lemma drop_adds_text_files_only_witness :
  uploadedFiles
    (handleDrop [mkFile "b.md" EmptyString "second"; mkFile "photo.png" "image/png" "image";
                 mkFile "c.log" "text/plain" "third"; mkFile "b.md" EmptyString "second"]
                (act initialHome (FileInput (Some [mkFile "a.txt" "text/plain" "first"])))) =
  [mkFile "a.txt" "text/plain" "first"; mkFile "b.md" EmptyString "second";
   mkFile "c.log" "text/plain" "third"; mkFile "b.md" EmptyString "second"].
Proof.
  apply (proj1 (drop_adds_text_files_only
                  [mkFile "b.md" EmptyString "second"; mkFile "photo.png" "image/png" "image";
                   mkFile "c.log" "text/plain" "third"; mkFile "b.md" EmptyString "second"]
                  (act initialHome (FileInput (Some [mkFile "a.txt" "text/plain" "first"]))))
           acceptedOnDrop acceptedOnDrop_iff).
Defined.

End PageFacts.
